(** * Application.js: project layout, two-mode construction, output routing

    A shallow embedding of [src/Application.js] of crosswalk-app-tools and
    the properties of its constructor and of its property setters.

    The file is organised as the program is:
    - [Path]     the functions of Node's [path] module the constructor calls;
    - [FS]       a directory tree, with the [ShellJS] calls made on it;
    - the heap of sink objects ([LogfileOutput], [OutputTee],
      [TerminalOutput]) with object identity;
    - [Application], [initMembers] and the property setters;
    - the theorems. *)

From Stdlib Require Import String Ascii List Bool Arith Lia.
From stdpp Require Import base option gmap strings list fin_maps.

Local Open Scope string_scope.
Local Open Scope list_scope.

(** ** JavaScript values

    The values that reach [Application.js]: the constructor's optional
    [packageId], what the package-id validator returns, and what a caller
    assigns to a property.  Numbers are left out; in this file they would
    take the same branches as booleans. *)

Definition loc := positive.

Inductive value :=
  | VUndefined
  | VNull
  | VBool (b : bool)
  | VStr (s : string)
  | VRef (l : loc).

Global Instance value_eq_dec : EqDecision value.
Proof. solve_decision. Defined.

(** JavaScript's ToBoolean: what [if (x)] and [!x] test. *)
Definition truthy (v : value) : bool :=
  match v with
  | VUndefined | VNull => false
  | VBool b => b
  | VStr s => negb (String.eqb s "")
  | VRef _ => true
  end.

(** JavaScript's ToString, as applied by [string + value]. *)
Definition to_string (v : value) : string :=
  match v with
  | VUndefined => "undefined"
  | VNull => "null"
  | VBool true => "true"
  | VBool false => "false"
  | VStr s => s
  | VRef _ => "[object Object]"
  end.

(** ** Node's [path] module (POSIX flavour)

    [Application.js] calls [Path.resolve], [Path.normalize], [Path.basename],
    [Path.dirname], [Path.join] and reads [Path.sep].  They are modelled the
    way Node implemented them when the file was written: [normalizeArray]
    over the non-empty segments for [normalize], [resolve] and [join], and
    the [splitPath] decomposition (root, directory, base name) for
    [basename] and [dirname].  Later releases of Node answer the same on
    the paths this file meets, but for [dirname] where the directory part
    ends in more than one slash. *)

Module Path.

Definition sep : string := "/".

Definition is_slash (c : ascii) : bool := Ascii.eqb c "/".

(** [s.split('/')] *)
Fixpoint split (s : string) : list string :=
  match s with
  | EmptyString => [EmptyString]
  | String c s' =>
      if is_slash c then EmptyString :: split s'
      else match split s' with
           | [] => [String c EmptyString]
           | x :: xs => String c x :: xs
           end
  end.

Definition nonempty (s : string) : bool := negb (String.eqb s "").

(** [path.split('/').filter(function(p) { return !!p; })] *)
Definition parts (s : string) : list string := List.filter nonempty (split s).

(** One iteration of [normalizeArray]'s loop, which runs from the last
    part to the first: [up] counts the pending [".."]. *)
Definition normalizeStep (last : string) (st : nat * list string)
  : nat * list string :=
  let (up, acc) := st in
  if String.eqb last "." then (up, acc)
  else if String.eqb last ".." then (S up, acc)
  else match up with
       | O => (O, last :: acc)
       | S up' => (up', acc)
       end.

Definition normalizeArray (ps : list string) (allowAboveRoot : bool)
  : list string :=
  let (up, acc) := fold_right normalizeStep (O, []) ps in
  if allowAboveRoot then repeat ".." up ++ acc else acc.

Definition isAbsolute (p : string) : bool :=
  match p with
  | String c _ => is_slash c
  | EmptyString => false
  end.

(** [path.substr(-1) === '/'] *)
Fixpoint trailingSlash (p : string) : bool :=
  match p with
  | EmptyString => false
  | String c EmptyString => is_slash c
  | String _ p' => trailingSlash p'
  end.

Definition join_parts (ps : list string) : string := String.concat "/" ps.

Definition normalize (p : string) : string :=
  let abs := isAbsolute p in
  let body := join_parts (normalizeArray (parts p) (negb abs)) in
  let body := if negb (nonempty body) && negb abs then "." else body in
  let body := if nonempty body && trailingSlash p then body +:+ "/" else body in
  (if abs then "/" else "") +:+ body.

(** [Path.resolve(p)] with one argument.  [cwd] is [process.cwd()], the
    absolute path of the process's working directory; it is consulted
    only when [p] is not absolute. *)
Definition resolve (cwd : string) (p : string) : string :=
  let '(resolvedPath, resolvedAbsolute) :=
    if nonempty p then (p +:+ "/", isAbsolute p) else ("", false) in
  let '(resolvedPath, resolvedAbsolute) :=
    if resolvedAbsolute then (resolvedPath, resolvedAbsolute)
    else if nonempty cwd then (cwd +:+ "/" +:+ resolvedPath, isAbsolute cwd)
    else (resolvedPath, resolvedAbsolute) in
  let body := join_parts (normalizeArray (parts resolvedPath) (negb resolvedAbsolute)) in
  let r := (if resolvedAbsolute then "/" else "") +:+ body in
  if nonempty r then r else ".".

(** [Path.join(a, b)] with two non-empty arguments. *)
Definition join (a b : string) : string := normalize (a +:+ "/" +:+ b).

(** [splitPath]: the root (["/"] or empty), the directory part with its
    closing slash, and the base name; trailing slashes belong to none.
    The three scans below run over the reversed rest of the path. *)
Fixpoint dropSlashes (l : list ascii) : list ascii :=
  match l with
  | c :: l' => if is_slash c then dropSlashes l' else l
  | [] => []
  end.

Fixpoint takeName (l : list ascii) : list ascii :=
  match l with
  | c :: l' => if is_slash c then [] else c :: takeName l'
  | [] => []
  end.

Fixpoint dropName (l : list ascii) : list ascii :=
  match l with
  | c :: l' => if is_slash c then l else dropName l'
  | [] => []
  end.

Definition splitPath (p : string) : string * string * string :=
  let (root, rest) :=
    match p with
    | String c r => if is_slash c then ("/", r) else ("", p)
    | EmptyString => ("", p)
    end in
  let r := dropSlashes (rev (list_ascii_of_string rest)) in
  (root,
   string_of_list_ascii (rev (dropName r)),
   string_of_list_ascii (rev (takeName r))).

Definition basename (p : string) : string :=
  let '(_, _, base) := splitPath p in base.

(** [dir.substr(0, dir.length - 1)] *)
Definition chop (s : string) : string :=
  string_of_list_ascii (removelast (list_ascii_of_string s)).

Definition dirname (p : string) : string :=
  let '(root, dir, _) := splitPath p in
  if negb (nonempty root) && negb (nonempty dir) then "."
  else root +:+ (if nonempty dir then chop dir else dir).

(** A part as [normalizeArray] keeps it: not empty, and no slash in
    front. *)
Definition plain (x : string) : Prop :=
  nonempty x = true /\ isAbsolute x = false.

Definition no_slash (l : list ascii) : bool :=
  forallb (fun c => negb (is_slash c)) l.

(** A directory name: not empty, and no slash in it. *)
Definition segment (s : string) : bool :=
  nonempty s && no_slash (list_ascii_of_string s).

End Path.

(** ** The filesystem

    A directory is named by the list of its segments, innermost first, so
    [["id"; "work"]] is [/work/id] and [[]] is the root, which always
    exists.  Files carry their content.  There are no symbolic links and no
    permissions. *)

Module FS.

Record t := mk {
  dirs : gset (list string);
  files : gmap (list string) string
}.

Inductive node :=
  | Dir
  | File (content : string).

Definition isdir (fs : t) (p : list string) : bool :=
  bool_decide (p = [] ∨ p ∈ dirs fs).

Definition node_at (fs : t) (p : list string) : option node :=
  if isdir fs p then Some Dir else File <$> files fs !! p.

(** One step of path resolution from the directory [cur]. *)
Definition enter (cur : list string) (c : string) : list string :=
  if String.eqb c "." then cur
  else if String.eqb c ".." then tail cur
  else c :: cur.

(** Resolution of the components [cs] from [cur]: every node a component
    is looked up in has to be a directory. *)
Fixpoint walk (fs : t) (cur : list string) (cs : list string)
  : option (list string) :=
  match cs with
  | [] => Some cur
  | c :: cs' => if isdir fs cur then walk fs (enter cur c) cs' else None
  end.

(** Where the path string [s] leads, from the root when it is absolute and
    from the working directory [cwd] otherwise. *)
Definition locate (fs : t) (cwd : list string) (s : string)
  : option (list string) :=
  if Path.nonempty s
  then walk fs (if Path.isAbsolute s then [] else cwd) (Path.parts s)
  else None.

(** [stat]: a path with a trailing slash names a directory or nothing. *)
Definition stat (fs : t) (cwd : list string) (s : string) : option node :=
  match locate fs cwd s with
  | Some p =>
      match node_at fs p with
      | Some (File c) => if Path.trailingSlash s then None else Some (File c)
      | n => n
      end
  | None => None
  end.

Definition existsSync (fs : t) (cwd : list string) (s : string) : bool :=
  bool_decide (is_Some (stat fs cwd s)).

Definition isDirectory (fs : t) (cwd : list string) (s : string) : bool :=
  match stat fs cwd s with
  | Some Dir => true
  | _ => false
  end.

Definition is_dot (c : string) : bool := String.eqb c "." || String.eqb c "..".

(** [fs.mkdirSync(s)]: [None] stands for the exception Node raises when
    the parent is missing or is a file, or when the name is taken. *)
Definition mkdirSync (fs : t) (cwd : list string) (s : string) : option t :=
  match locate fs cwd s with
  | Some p =>
      if is_dot (List.last (Path.parts s) ".") then None
      else match node_at fs p with
           | Some _ => None
           | None => Some (mk ({[ p ]} ∪ dirs fs) (files fs))
           end
  | None => None
  end.

(** [fs.unlinkSync(s)] on a path that [stat] found to be a file. *)
Definition unlinkSync (fs : t) (cwd : list string) (s : string) : t :=
  match locate fs cwd s with
  | Some p => mk (dirs fs) (delete p (files fs))
  | None => fs
  end.

(** Creating or truncating the file at [s] to empty.  Nothing happens when
    the parent directory is missing or [s] is a directory. *)
Definition truncate (fs : t) (cwd : list string) (s : string) : t :=
  match locate fs cwd s with
  | Some p =>
      if isdir fs p || Path.trailingSlash s then fs
      else mk (dirs fs) (<[ p := "" ]> (files fs))
  | None => fs
  end.

End FS.

(** ** Exceptions, the heap of objects, and the world *)

(** [InvalidPathException] and [IllegalAccessException] are the two classes
    [Application.js] throws, each with its message.  [ForeignException] is
    whatever a collaborator raises (the package-id validator, Node's [fs]). *)
Inductive exn :=
  | InvalidPathException (msg : string)
  | IllegalAccessException (msg : string)
  | ForeignException (msg : string).

Global Instance exn_eq_dec : EqDecision exn.
Proof. solve_decision. Defined.

(** The objects [Application.js] creates or is handed. *)
Inductive obj :=
  | LogfileOutputObj (path : string)
  | OutputTeeObj (logfileOutput : value) (terminalOutput : value)
  | TerminalOutputObj.

Global Instance obj_eq_dec : EqDecision obj.
Proof. solve_decision. Defined.

Record World := mkWorld {
  fs : FS.t;
  (** [process.cwd()], as a directory of [fs] *)
  proc_cwd : list string;
  heap : gmap loc obj;
  (** the instance [TerminalOutput.getInstance()] hands out, once created *)
  terminal : option loc
}.

Definition with_fs (w : World) (f : FS.t) : World :=
  mkWorld f (proc_cwd w) (heap w) (terminal w).

Definition with_heap (w : World) (h : gmap loc obj) : World :=
  mkWorld (fs w) (proc_cwd w) h (terminal w).

(** ** A state-and-exception monad

    A computation runs on a state and either returns or throws; in both
    cases it leaves a state behind, the one reached when it stopped. *)

Inductive outcome (A : Type) :=
  | Ok (a : A)
  | Throw (e : exn).
Arguments Ok {A} a.
Arguments Throw {A} e.

Definition M (S A : Type) : Type := S -> outcome A * S.

Definition ret {S A} (a : A) : M S A := fun s => (Ok a, s).

Definition throw {S A} (e : exn) : M S A := fun s => (Throw e, s).

Definition bind {S A B} (c : M S A) (k : A -> M S B) : M S B :=
  fun s =>
    match c s with
    | (Ok a, s') => k a s'
    | (Throw e, s') => (Throw e, s')
    end.

Definition gets {S A} (f : S -> A) : M S A := fun s => (Ok (f s), s).

Definition modify {S} (f : S -> S) : M S unit := fun s => (Ok tt, f s).

Notation "x <- c ;; k" := (bind c (fun x => k))
  (at level 100, c at next level, right associativity).
Notation "c ;;; k" := (bind c (fun _ => k))
  (at level 100, right associativity).

(** [if (cond) { throw e; }] *)
Definition throw_if {S} (cond : bool) (e : exn) : M S unit :=
  if cond then throw e else ret tt.

(** ** ShellJS *)

Module ShellJS.

(** [ShellJS.test("-d", s)] *)
Definition test_d (s : string) : M World bool :=
  gets (fun w => FS.isDirectory (fs w) (proc_cwd w) s).

(** [ShellJS.mkdir(s)], without [-p].  An existing path and a missing
    parent are reported on the console and skipped; the call throws only
    when [fs.mkdirSync] does. *)
Definition mkdir (s : string) : M World unit :=
  fun w =>
    if FS.existsSync (fs w) (proc_cwd w) s then (Ok tt, w)
    else if negb (FS.existsSync (fs w) (proc_cwd w) (Path.dirname s)) then (Ok tt, w)
    else match FS.mkdirSync (fs w) (proc_cwd w) s with
         | Some f => (Ok tt, with_fs w f)
         | None => (Throw (ForeignException ("mkdirSync: " +:+ s)), w)
         end.

(** [ShellJS.rm("-f", s)]: a file is unlinked; a missing path is passed
    over, and a directory is reported and left alone. *)
Definition rm_f (s : string) : M World unit :=
  fun w =>
    match FS.stat (fs w) (proc_cwd w) s with
    | Some (FS.File _) => (Ok tt, with_fs w (FS.unlinkSync (fs w) (proc_cwd w) s))
    | _ => (Ok tt, w)
    end.

End ShellJS.

(** [process.cwd()] *)
Definition cwd_string (w : World) : string :=
  "/" +:+ Path.join_parts (rev (proc_cwd w)).

Definition process_cwd : M World string := gets cwd_string.

(** ** The collaborators of [Application.js] *)

Definition alloc (o : obj) : M World loc :=
  fun w =>
    let l := fresh (dom (heap w)) in
    (Ok l, with_heap w (<[ l := o ]> (heap w))).

(** Modelled from the spec: [src/LogfileOutput.js] is not part of the
    sources.  "Logfile sink constructor: given an absolute file path, returns
    a writable sink bound to that file"; constructing the common sink
    "recreate[s] an empty common logfile". *)
Definition new_LogfileOutput (path : string) : M World loc :=
  modify (fun w => with_fs w (FS.truncate (fs w) (proc_cwd w) path)) ;;;
  alloc (LogfileOutputObj path).

(** Modelled from the spec: [src/TerminalOutput.js] is not part of the
    sources.  "Terminal sink singleton: process-wide, lazily obtained, one
    per process". *)
Definition TerminalOutput_getInstance : M World loc :=
  fun w =>
    match terminal w with
    | Some l => (Ok l, w)
    | None =>
        let l := fresh (dom (heap w)) in
        (Ok l, mkWorld (fs w) (proc_cwd w) (<[ l := TerminalOutputObj ]> (heap w)) (Some l))
    end.

(** Modelled from the spec: [src/OutputTee.js] is not part of the sources.
    The router holds its secondary (logfile) sink and its primary (terminal)
    sink, as they were passed to its constructor. *)
Definition new_OutputTee (logfileOutput terminalOutput : value) : M World loc :=
  alloc (OutputTeeObj logfileOutput terminalOutput).

(** Modelled from the spec: assigning the router's [logfileOutput] property
    "re-points the router's secondary sink". *)
Definition set_logfileOutput (tee : loc) (v : value) : M World unit :=
  modify (fun w =>
    with_heap w (alter (fun o => match o with
                                 | OutputTeeObj _ t => OutputTeeObj v t
                                 | o => o
                                 end) tee (heap w))).

(** [x instanceof LogfileOutput] *)
Definition instanceof_LogfileOutput (h : gmap loc obj) (v : value) : bool :=
  match v with
  | VRef l => match h !! l with
              | Some (LogfileOutputObj _) => true
              | _ => false
              end
  | _ => false
  end.

(** ** Application.js *)

(** The fields the constructor's branches set on [this]. *)
Record Members := mkMembers {
  _packageId : value;
  _rootPath : string;
  _appPath : string;
  _logPath : string;
  _pkgPath : string;
  _prjPath : string
}.

(** A constructed [Application]. *)
Record AppObject := mkApp {
  members : Members;
  _logfileOutput : loc;
  _platformLogfileOutput : value;
  _output : loc
}.

(** [initMembers.call(this, basePath)], with [this._packageId] passed
    explicitly. *)
Definition initMembers (packageId : value) (basePath : string) : Members :=
  let rootPath := basePath +:+ Path.sep +:+ to_string packageId in
  {| _packageId := packageId;
     _rootPath := rootPath;
     _appPath := rootPath +:+ Path.sep +:+ "app";
     _logPath := rootPath +:+ Path.sep +:+ "log";
     _pkgPath := rootPath +:+ Path.sep +:+ "pkg";
     _prjPath := rootPath +:+ Path.sep +:+ "prj" |}.

Section Constructor.

(** [CommandParser.validatePackageId(candidate, this.output)].
    [src/CommandParser.js] is not part of the sources, so the validator is
    a parameter: it returns a value or raises.  Both calls in the
    constructor pass the same second argument, [this.output] before
    [this._output] is assigned. *)
Variable validatePackageId : value -> outcome value.

Definition validate (candidate : value) : M World value :=
  fun w => (validatePackageId candidate, w).

(** Lines 40-54: a [packageId] was passed, a new project is created. *)
Definition createProject (cwd : string) (packageId : value) : M World Members :=
  id <- validate packageId ;;
  let this := initMembers id cwd in
  taken <- ShellJS.test_d (_rootPath this) ;;
  throw_if taken
    (InvalidPathException
       ("Failed to create project, path already exists: " +:+ _rootPath this)) ;;;
  ShellJS.mkdir (_rootPath this) ;;;
  ShellJS.mkdir (_appPath this) ;;;
  ShellJS.mkdir (_logPath this) ;;;
  ShellJS.mkdir (_pkgPath this) ;;;
  ShellJS.mkdir (_prjPath this) ;;;
  ret this.

(** Lines 58-65: no [packageId], the project in [cwd] is loaded. *)
Definition loadProject (cwd : string) : M World Members :=
  let basename := Path.basename cwd in
  id <- validate (VStr basename) ;;
  throw_if (negb (truthy id))
    (InvalidPathException
       ("Path does not seem to be a project toplevel: " +:+ cwd)) ;;;
  ret (initMembers id (Path.dirname cwd)).

Definition check_dir (p : string) : M World unit :=
  d <- ShellJS.test_d p ;;
  throw_if (negb d) (InvalidPathException ("Failed to load, invalid path: " +:+ p)).

(** Lines 69-84: all paths have to exist. *)
Definition checkPaths (this : Members) : M World unit :=
  check_dir (_rootPath this) ;;;
  check_dir (_appPath this) ;;;
  check_dir (_logPath this) ;;;
  check_dir (_pkgPath this) ;;;
  check_dir (_prjPath this).

(** Lines 86-93: a new common logfile, and the output router. *)
Definition setupLogging (this : Members) : M World AppObject :=
  let logfilePath := Path.join (_logPath this) "common.log" in
  ShellJS.rm_f logfilePath ;;;
  logfileOutput <- new_LogfileOutput logfilePath ;;
  terminalOutput <- TerminalOutput_getInstance ;;
  output <- new_OutputTee (VRef logfileOutput) (VRef terminalOutput) ;;
  ret (mkApp this logfileOutput VNull output).

(** [new Application(cwd, packageId)] *)
Definition Application (cwd : string) (packageId : value) : M World AppObject :=
  pcwd <- process_cwd ;;
  throw_if (negb (truthy (VStr cwd))
            || negb (String.eqb (Path.resolve pcwd cwd) (Path.normalize cwd)))
    (InvalidPathException ("Path not absolute: " +:+ cwd)) ;;;
  present <- ShellJS.test_d cwd ;;
  throw_if (negb present)
    (InvalidPathException ("Path does not exist: " +:+ cwd)) ;;;
  this <- (if truthy packageId
           then createProject cwd packageId
           else loadProject cwd) ;;
  checkPaths this ;;;
  setupLogging this.

End Constructor.

(** ** The properties of an instance

    The accessors run on the instance and the world it lives in. *)

Record State := mkState {
  this : AppObject;
  world : World
}.

Definition lift {A} (c : M World A) : M State A :=
  fun st =>
    let (r, w) := c (world st) in
    (r, mkState (this st) w).

Definition get_packageId : M State value := gets (fun st => _packageId (members (this st))).
Definition get_rootPath : M State string := gets (fun st => _rootPath (members (this st))).
Definition get_appPath : M State string := gets (fun st => _appPath (members (this st))).
Definition get_logPath : M State string := gets (fun st => _logPath (members (this st))).
Definition get_pkgPath : M State string := gets (fun st => _pkgPath (members (this st))).
Definition get_prjPath : M State string := gets (fun st => _prjPath (members (this st))).
Definition get_platformLogfileOutput : M State value :=
  gets (fun st => _platformLogfileOutput (this st)).
Definition get_output : M State loc := gets (fun st => _output (this st)).

Definition set_config (config : value) : M State unit :=
  throw (IllegalAccessException
           "Attempting to write read-only property Application.config").

Definition set_output (output : value) : M State unit :=
  throw (IllegalAccessException
           "Attempting to write read-only property Application.output").

Definition assign_platformLogfileOutput (v : value) : M State unit :=
  modify (fun st =>
    mkState (mkApp (members (this st)) (_logfileOutput (this st)) v (_output (this st)))
            (world st)).

Definition set_platformLogfileOutput (platformLogfileOutput : value) : M State unit :=
  h <- gets (fun st => heap (world st)) ;;
  if instanceof_LogfileOutput h platformLogfileOutput then
    (* Route output to platform logfile. *)
    assign_platformLogfileOutput platformLogfileOutput ;;;
    output <- get_output ;;
    lift (set_logfileOutput output platformLogfileOutput)
  else if bool_decide (platformLogfileOutput = VNull) then
    (* Reset output to common logfile. *)
    assign_platformLogfileOutput VNull ;;;
    output <- get_output ;;
    common <- gets (fun st => _logfileOutput (this st)) ;;
    lift (set_logfileOutput output (VRef common))
  else
    throw (IllegalAccessException
             "Attempting invalid write to property Application.platformLogfileOutput").

(** The router's two sinks, read off the heap. *)
Definition secondary_sink (st : State) : option value :=
  match heap (world st) !! _output (this st) with
  | Some (OutputTeeObj l _) => Some l
  | _ => None
  end.

Definition primary_sink (st : State) : option value :=
  match heap (world st) !! _output (this st) with
  | Some (OutputTeeObj _ t) => Some t
  | _ => None
  end.

(** What a caller does with an instance over its lifetime: it assigns
    properties, and it creates the platform sinks it assigns.  An exception
    ends the call that raised it, not the instance. *)
Inductive call :=
  | SetPlatformLogfileOutput (v : value)
  | SetOutput (v : value)
  | SetConfig (v : value)
  | NewLogfileOutput (path : string).

Definition perform (c : call) : M State unit :=
  match c with
  | SetPlatformLogfileOutput v => set_platformLogfileOutput v
  | SetOutput v => set_output v
  | SetConfig v => set_config v
  | NewLogfileOutput path => lift (new_LogfileOutput path) ;;; ret tt
  end.

Fixpoint run (cs : list call) (st : State) : State :=
  match cs with
  | [] => st
  | c :: cs' => run cs' (snd (perform c st))
  end.

(** ** Vocabulary of the statements *)

(** [ShellJS.test("-d", p)] as a function of the world. *)
Definition is_dir (w : World) (p : string) : bool :=
  FS.isDirectory (fs w) (proc_cwd w) p.

(** The five paths, in the order the constructor creates and checks them. *)
Definition layout (m : Members) : list string :=
  [_rootPath m; _appPath m; _logPath m; _pkgPath m; _prjPath m].

(** The first of the five paths that is not a directory, if any. *)
Definition missing (w : World) (m : Members) : option string :=
  List.find (fun p => negb (is_dir w p)) (layout m).

Definition logfilePath (m : Members) : string :=
  Path.join (_logPath m) "common.log".

(** The constructor's test on [cwd], lines 29-30. *)
Definition cwd_rejected (w : World) (cwd : string) : bool :=
  negb (truthy (VStr cwd))
  || negb (String.eqb (Path.resolve (cwd_string w) cwd) (Path.normalize cwd)).

(** The directories of [w] are directories of [w'], and paths are resolved
    from the same working directory. *)
Definition grows (w w' : World) : Prop :=
  FS.dirs (fs w) ⊆ FS.dirs (fs w') /\ proc_cwd w' = proc_cwd w.

(** Nothing but the filesystem differs between [w] and [w']. *)
Definition same_heap (w w' : World) : Prop :=
  heap w' = heap w /\ terminal w' = terminal w.

Definition scaffolds (w w' : World) : Prop := grows w w' /\ same_heap w w'.

(** Every run of [c] relates the state it starts in to the state it ends
    in by [R], whether it returns or throws. *)
Definition stable {S A} (R : S -> S -> Prop) (c : M S A) : Prop :=
  forall s r s', c s = (r, s') -> R s s'.

(** The sinks are wired the way the constructor and the setter leave them:
    [lf] is the common sink, [o] the router, [t] the terminal instance. *)
Definition wired (lf o t : loc) (path : string) (st : State) : Prop :=
  _logfileOutput (this st) = lf /\
  _output (this st) = o /\
  heap (world st) !! lf = Some (LogfileOutputObj path) /\
  exists sec,
    heap (world st) !! o = Some (OutputTeeObj sec (VRef t)) /\
    (_platformLogfileOutput (this st) = VNull /\ sec = VRef lf
     \/ _platformLogfileOutput (this st) = sec /\ sec <> VNull /\
        instanceof_LogfileOutput (heap (world st)) sec = true).

(** ** Vocabulary of the further properties *)

(** [w'] is [w] with more directories, and nothing else. *)
Definition mkdirs_only (w w' : World) : Prop :=
  scaffolds w w' /\ FS.files (fs w') = FS.files (fs w).

(** The candidate the constructor hands to the validator. *)
Definition candidate (cwd : string) (pid : value) : value :=
  if truthy pid then pid else VStr (Path.basename cwd).

(** Every directory and every file of [f] lies in a directory of [f]. *)
Definition fs_wf (f : FS.t) : bool :=
  forallb (fun p => FS.isdir f (tail p))
          (elements (FS.dirs f) ++ elements (dom (FS.files f))).

(** [f] with the directory [p] added. *)
Definition add_dir (f : FS.t) (p : list string) : FS.t :=
  FS.mk ({[ p ]} ∪ FS.dirs f) (FS.files f).

(** The values the [platformLogfileOutput] setter accepts. *)
Definition accepted_sink (h : gmap loc obj) (v : value) : bool :=
  instanceof_LogfileOutput h v || bool_decide (v = VNull).

(** The router's logfile sink becomes [v]. *)
Definition repoint (v : value) (o : obj) : obj :=
  match o with
  | OutputTeeObj _ t => OutputTeeObj v t
  | o => o
  end.

(** The state an accepted assignment of [v] leaves: [v] in the field, and
    the router on [v], or on the common sink when [v] is [null]. *)
Definition assigned (v : value) (st : State) : State :=
  mkState
    (mkApp (members (this st)) (_logfileOutput (this st)) v (_output (this st)))
    (with_heap (world st)
       (alter (repoint (match v with
                        | VNull => VRef (_logfileOutput (this st))
                        | _ => v
                        end))
              (_output (this st)) (heap (world st)))).

(** ** Examples *)

Module Examples.

(** A validator in the shape of the spec's interface: three or more
    dot-separated parts are accepted and returned, anything else yields
    [null]. *)
Definition dots (s : string) : nat :=
  length (List.filter (Ascii.eqb ".") (list_ascii_of_string s)).

Definition validator (v : value) : outcome value :=
  match v with
  | VStr s => if Nat.leb 2 (dots s) then Ok (VStr s) else Ok VNull
  | _ => Ok VNull
  end.


Definition foo : value := VStr "com.example.foo".

(** An empty [/work], which is also the working directory. *)
Definition w0 : World :=
  mkWorld (FS.mk {[ ["work"] ]} ∅) ["work"] ∅ None.

(** [/work] after [new Application("/work", "com.example.foo")]. *)
Definition app1 : AppObject :=
  mkApp (initMembers foo "/work") 1%positive VNull 3%positive.

Definition w1 : World :=
  mkWorld
    (FS.mk {[ ["work"];
              ["com.example.foo"; "work"];
              ["app"; "com.example.foo"; "work"];
              ["log"; "com.example.foo"; "work"];
              ["pkg"; "com.example.foo"; "work"];
              ["prj"; "com.example.foo"; "work"] ]}
           {[ ["common.log"; "log"; "com.example.foo"; "work"] := "" ]})
    ["work"]
    {[ 1%positive := LogfileOutputObj "/work/com.example.foo/log/common.log";
       2%positive := TerminalOutputObj;
       3%positive := OutputTeeObj (VRef 1%positive) (VRef 2%positive) ]}
    (Some 2%positive).

Definition st1 : State := mkState app1 w1.

(** [/work/com.example.foo] exists, its four children do not. *)
Definition w_bare : World :=
  mkWorld (FS.mk {[ ["work"]; ["com.example.foo"; "work"] ]} ∅) ["work"] ∅ None.

(** A caller creates a platform sink, routes the output to it, and then
    makes two assignments that are refused. *)
Definition calls : list call :=
  [ NewLogfileOutput "/work/com.example.foo/log/android.log";
    SetPlatformLogfileOutput (VRef 4%positive);
    SetOutput VNull;
    SetPlatformLogfileOutput (VBool true) ].

(** A validator that raises on everything. *)
Definition raising (v : value) : outcome value :=
  Throw (ForeignException "InvalidPackageId").

Definition bar : value := VStr "com.example.bar".

(** A second project, created in [/work] after the first. *)
Definition second : outcome AppObject * World :=
  Application validator "/work" bar w1.

Definition app2 : AppObject :=
  match fst second with
  | Ok a => a
  | Throw _ => app1
  end.

Definition w2 : World := snd second.

End Examples.

(** * Properties *)

(** ** Path *)

Module PathFacts.
Import Path.

Lemma append_empty_l (s : string) : "" +:+ s = s.
Proof. reflexivity. Qed.

Lemma append_cons (c : ascii) (a b : string) :
  String c a +:+ b = String c (a +:+ b).
Proof. reflexivity. Qed.

Lemma split_not_nil (s : string) : split s <> [].
Proof.
  induction s as [|c s IH]; simpl; [done|].
  destruct (is_slash c); [done|]. destruct (split s); done.
Qed.

Lemma split_app_slash (s : string) : split (s +:+ "/") = split s ++ [""].
Proof.
  induction s as [|c s IH]; simpl; [done|].
  destruct (is_slash c); rewrite IH; [done|].
  pose proof (split_not_nil s). destruct (split s); done.
Qed.

Lemma parts_app_slash (s : string) : parts (s +:+ "/") = parts s.
Proof.
  unfold parts. rewrite split_app_slash, List.filter_app. simpl.
  apply app_nil_r.
Qed.

Lemma split_relative (s : string) :
  Forall (fun x => isAbsolute x = false) (split s).
Proof.
  induction s as [|c s IH]; simpl.
  - by repeat constructor.
  - destruct (is_slash c) eqn:Hc; [by constructor|].
    destruct (split s) as [|x xs]; [by repeat constructor|].
    inversion IH; subst. by constructor.
Qed.

Lemma parts_plain (s : string) : Forall plain (parts s).
Proof.
  unfold parts. pose proof (split_relative s) as H.
  induction H as [|x xs Hx Hxs IH]; simpl; [constructor|].
  destruct (nonempty x) eqn:E; [|done]. by constructor.
Qed.

Lemma normalizeArray_plain (ps : list string) (b : bool) :
  Forall plain ps -> Forall plain (normalizeArray ps b).
Proof.
  intros H. unfold normalizeArray.
  assert (Hacc : Forall plain (snd (fold_right normalizeStep (O, []) ps))).
  { induction H as [|x xs Hx Hxs IH]; simpl; [constructor|].
    destruct (fold_right normalizeStep (O, []) xs) as [up acc]. simpl in *.
    destruct (String.eqb x "."); [done|].
    destruct (String.eqb x ".."); [done|].
    destruct up; simpl; [by constructor | done]. }
  destruct (fold_right normalizeStep (O, []) ps) as [up acc]. simpl in Hacc.
  destruct b; [|done].
  apply Forall_app. split; [|done].
  clear. induction up; simpl; constructor; [by split | done].
Qed.

Lemma join_parts_plain (l : list string) :
  Forall plain l -> isAbsolute (join_parts l) = false.
Proof.
  intros H. destruct H as [|x xs [Hx1 Hx2] _]; [done|].
  unfold join_parts. simpl.
  destruct x as [|c x]; [done|]. simpl in Hx2.
  destruct xs; simpl; done.
Qed.

Lemma isAbsolute_app (a b : string) :
  nonempty a = true -> isAbsolute (a +:+ b) = isAbsolute a.
Proof. by destruct a. Qed.

(** [normalize] keeps a relative path relative. *)
Lemma normalize_relative (p : string) :
  isAbsolute p = false -> isAbsolute (normalize p) = false.
Proof.
  intros Hp. unfold normalize. rewrite Hp. simpl.
  pose proof (join_parts_plain _ (normalizeArray_plain _ true (parts_plain p))) as Hb.
  set (body := join_parts (normalizeArray (parts p) true)) in *.
  destruct (nonempty body) eqn:Hn; simpl; rewrite ?Hn; simpl.
  - rewrite append_empty_l. destruct (trailingSlash p); [|done].
    by rewrite isAbsolute_app.
  - by destruct (trailingSlash p).
Qed.

(** [resolve] answers with an absolute path when [process.cwd()] is one. *)
Lemma resolve_absolute (cwd p : string) :
  isAbsolute cwd = true -> isAbsolute (resolve cwd p) = true.
Proof.
  intros Hc. unfold resolve.
  assert (Hne : nonempty cwd = true) by (by destruct cwd).
  destruct (nonempty p); [destruct (isAbsolute p)|]; try rewrite Hne, Hc; done.
Qed.

Lemma relative_not_resolved (cwd p : string) :
  isAbsolute cwd = true -> isAbsolute p = false -> resolve cwd p <> normalize p.
Proof.
  intros Hc Hp E. pose proof (resolve_absolute cwd p Hc) as H1.
  pose proof (normalize_relative p Hp) as H2. congruence.
Qed.

(** On an absolute path without a slash at the end, [resolve] and
    [normalize] agree. *)
Lemma resolve_normalize (cwd p : string) :
  isAbsolute p = true -> trailingSlash p = false -> resolve cwd p = normalize p.
Proof.
  intros Ha Ht. unfold resolve, normalize.
  assert (Hne : nonempty p = true) by (by destruct p).
  rewrite Hne, Ha, Ht. simpl. rewrite parts_app_slash.
  by rewrite !andb_false_r.
Qed.

Lemma list_ascii_app (a b : string) :
  list_ascii_of_string (a +:+ b) = list_ascii_of_string a ++ list_ascii_of_string b.
Proof. induction a; simpl; [done|]. by rewrite IHa. Qed.

Lemma no_slash_rev (l : list ascii) : no_slash (rev l) = no_slash l.
Proof.
  unfold no_slash. induction l as [|c l IH]; simpl; [done|].
  rewrite forallb_app, IH. simpl. rewrite andb_true_r. apply andb_comm.
Qed.

Lemma takeName_app (l x : list ascii) :
  no_slash l = true -> takeName (l ++ "/"%char :: x) = l.
Proof.
  induction l as [|c l IH]; simpl; [done|].
  intros [Hc Hl]%andb_true_iff. apply negb_true_iff in Hc. rewrite Hc.
  by rewrite IH.
Qed.

Lemma dropName_app (l x : list ascii) :
  no_slash l = true -> dropName (l ++ "/"%char :: x) = "/"%char :: x.
Proof.
  induction l as [|c l IH]; simpl; [done|].
  intros [Hc Hl]%andb_true_iff. apply negb_true_iff in Hc. rewrite Hc.
  by rewrite IH.
Qed.

Lemma dropSlashes_name (l x : list ascii) :
  l <> [] -> no_slash l = true -> dropSlashes (l ++ x) = l ++ x.
Proof.
  destruct l as [|c l]; [done|]. simpl.
  intros _ [Hc Hl]%andb_true_iff. apply negb_true_iff in Hc. by rewrite Hc.
Qed.

Lemma string_of_list_ascii_app (a b : list ascii) :
  string_of_list_ascii (a ++ b) = string_of_list_ascii a +:+ string_of_list_ascii b.
Proof. induction a; simpl; [done|]. by rewrite IHa. Qed.

Lemma splitPath_child (b id : string) :
  segment id = true ->
  splitPath (String "/" b +:+ "/" +:+ id) = ("/", b +:+ "/", id).
Proof.
  intros [Hne Hns]%andb_true_iff.
  unfold splitPath. rewrite append_cons. simpl is_slash. cbv iota.
  rewrite !list_ascii_app, !rev_app_distr.
  assert (Hr : rev (list_ascii_of_string id) <> []).
  { destruct id; [done|]. simpl. by destruct (rev (list_ascii_of_string id)). }
  rewrite <- app_assoc.
  rewrite dropSlashes_name by (by rewrite ?no_slash_rev).
  change (rev (list_ascii_of_string "/") ++ ?x) with ("/"%char :: x).
  rewrite takeName_app, dropName_app by (by rewrite no_slash_rev).
  rewrite rev_involutive, string_of_list_ascii_of_string.
  simpl rev. rewrite rev_involutive, string_of_list_ascii_app.
  by rewrite string_of_list_ascii_of_string.
Qed.

Lemma basename_child (base id : string) :
  isAbsolute base = true -> segment id = true ->
  basename (base +:+ "/" +:+ id) = id.
Proof.
  intros Hb Hid. destruct base as [|c b]; [done|]. simpl in Hb.
  apply Ascii.eqb_eq in Hb. subst c.
  unfold basename. by rewrite splitPath_child.
Qed.

Lemma chop_slash (b : string) : chop (b +:+ "/") = b.
Proof.
  unfold chop. rewrite list_ascii_app. simpl.
  by rewrite removelast_last, string_of_list_ascii_of_string.
Qed.

Lemma dirname_child (base id : string) :
  isAbsolute base = true -> segment id = true ->
  dirname (base +:+ "/" +:+ id) = base.
Proof.
  intros Hb Hid. destruct base as [|c b]; [done|]. simpl in Hb.
  apply Ascii.eqb_eq in Hb. subst c.
  unfold dirname. rewrite splitPath_child by done. simpl.
  assert (Hn : nonempty (b +:+ "/") = true) by (by destruct b).
  by rewrite Hn, chop_slash.
Qed.

Lemma trailingSlash_app (a b : string) :
  nonempty b = true -> trailingSlash (a +:+ b) = trailingSlash b.
Proof.
  intros Hb. induction a as [|c a IH]; [done|].
  rewrite append_cons. simpl.
  destruct (a +:+ b) eqn:E; [|by rewrite <- IH].
  destruct a; [|done]. rewrite append_empty_l in E. by subst b.
Qed.

Lemma trailingSlash_segment (s : string) : segment s = true -> trailingSlash s = false.
Proof.
  intros [_ H]%andb_true_iff. induction s as [|c s IH]; [done|].
  simpl in H. apply andb_true_iff in H as [Hc Hs].
  simpl. destruct s; [by apply negb_true_iff|]. by apply IH.
Qed.

Lemma child_resolved (pcwd base id : string) :
  isAbsolute base = true -> segment id = true ->
  resolve pcwd (base +:+ "/" +:+ id) = normalize (base +:+ "/" +:+ id).
Proof.
  intros Hb Hid. apply resolve_normalize.
  - rewrite isAbsolute_app; [done|]. by destruct base.
  - pose proof Hid as [Hne _]%andb_true_iff.
    rewrite !trailingSlash_app; [by apply trailingSlash_segment|done|by destruct id].
Qed.

Lemma takeName_all (l : list ascii) : no_slash l = true -> takeName l = l.
Proof.
  induction l as [|c l IH]; simpl; [done|].
  intros [Hc Hl]%andb_true_iff. apply negb_true_iff in Hc. rewrite Hc.
  by rewrite IH.
Qed.

Lemma dropName_all (l : list ascii) : no_slash l = true -> dropName l = [].
Proof.
  induction l as [|c l IH]; simpl; [done|].
  intros [Hc Hl]%andb_true_iff. apply negb_true_iff in Hc. rewrite Hc.
  by apply IH.
Qed.

(** A name right under the root. *)
Lemma splitPath_top (id : string) :
  segment id = true -> splitPath ("/" +:+ id) = ("/", "", id).
Proof.
  intros [Hne Hns]%andb_true_iff.
  unfold splitPath. rewrite append_cons. simpl is_slash. cbv iota.
  rewrite append_empty_l.
  assert (Hr : rev (list_ascii_of_string id) <> []).
  { destruct id; [done|]. simpl. by destruct (rev (list_ascii_of_string id)). }
  rewrite <- (app_nil_r (rev (list_ascii_of_string id))).
  rewrite dropSlashes_name by (by rewrite ?no_slash_rev).
  rewrite app_nil_r.
  rewrite takeName_all, dropName_all by (by rewrite no_slash_rev).
  by rewrite rev_involutive, string_of_list_ascii_of_string.
Qed.

Lemma basename_top (id : string) : segment id = true -> basename ("/" +:+ id) = id.
Proof. intros H. unfold basename. by rewrite splitPath_top. Qed.

Lemma dirname_top (id : string) : segment id = true -> dirname ("/" +:+ id) = "/".
Proof. intros H. unfold dirname. by rewrite splitPath_top. Qed.

Lemma parts_slash (s : string) : parts ("/" +:+ s) = parts s.
Proof. reflexivity. Qed.

End PathFacts.

Lemma length_append (a b : string) :
  String.length (a +:+ b) = String.length a + String.length b.
Proof. induction a as [|c a IH]; simpl; [done|]. by rewrite IH. Qed.

(** An absolute path that ends in a slash is turned away, unless it
    normalizes to the root. *)
Lemma trailing_not_resolved (pcwd p : string) :
  Path.isAbsolute p = true -> Path.trailingSlash p = true ->
  Path.normalize p <> "/" ->
  Path.resolve pcwd p <> Path.normalize p.
Proof.
  intros Ha Ht. unfold Path.resolve, Path.normalize.
  assert (Hne : Path.nonempty p = true) by (by destruct p).
  rewrite Hne, Ha, Ht. simpl. rewrite PathFacts.parts_app_slash, !andb_false_r, !andb_true_r.
  set (body := Path.join_parts (Path.normalizeArray (Path.parts p) false)).
  destruct (Path.nonempty body) eqn:Hb.
  - intros _ E. apply (f_equal String.length) in E.
    rewrite !length_append in E. simpl in E. lia.
  - destruct body; [|done]. by intros H.
Qed.


(** ** The filesystem *)

Module FSFacts.
Import FS.

Lemma isdir_mono (f f' : t) (p : list string) :
  dirs f ⊆ dirs f' -> isdir f p = true -> isdir f' p = true.
Proof.
  unfold isdir. intros Hsub H. apply bool_decide_eq_true in H.
  apply bool_decide_eq_true. destruct H as [H|H]; [by left|right]. by apply Hsub.
Qed.

Lemma walk_mono (f f' : t) (cs cur p : list string) :
  dirs f ⊆ dirs f' -> walk f cur cs = Some p -> walk f' cur cs = Some p.
Proof.
  intros Hsub. revert cur. induction cs as [|c cs IH]; simpl; intros cur H; [done|].
  destruct (isdir f cur) eqn:E; [|done].
  rewrite (isdir_mono f f' cur Hsub E). by apply IH.
Qed.

Lemma isDirectory_spec (f : t) (cwd : list string) (s : string) :
  isDirectory f cwd s = true <->
  exists p, locate f cwd s = Some p /\ isdir f p = true.
Proof.
  unfold isDirectory, stat, node_at. split.
  - destruct (locate f cwd s) as [p|]; [|done].
    destruct (isdir f p) eqn:E; [by exists p|].
    destruct (files f !! p); simpl; [|done]. by destruct (Path.trailingSlash s).
  - intros (p & -> & ->). done.
Qed.

Lemma isDirectory_same_parts (f : t) (cwd : list string) (s s' : string) :
  Path.nonempty s = Path.nonempty s' ->
  Path.isAbsolute s = Path.isAbsolute s' ->
  Path.parts s = Path.parts s' ->
  isDirectory f cwd s = isDirectory f cwd s'.
Proof.
  intros H1 H2 H3. apply eq_true_iff_eq.
  rewrite !isDirectory_spec. unfold locate. by rewrite H1, H2, H3.
Qed.

Lemma isDirectory_mono (f f' : t) (cwd : list string) (s : string) :
  dirs f ⊆ dirs f' -> isDirectory f cwd s = true -> isDirectory f' cwd s = true.
Proof.
  intros Hsub (p & Hl & Hd)%isDirectory_spec. apply isDirectory_spec.
  exists p. split; [|by eapply isdir_mono].
  unfold locate in *. destruct (Path.nonempty s); [|done]. by eapply walk_mono.
Qed.

Lemma isDirectory_dirs (f f' : t) (cwd : list string) (s : string) :
  dirs f' = dirs f -> isDirectory f' cwd s = isDirectory f cwd s.
Proof.
  intros E. apply eq_true_iff_eq. split; apply isDirectory_mono; by rewrite E.
Qed.

Lemma mkdirSync_dirs (f f' : t) (cwd : list string) (s : string) :
  mkdirSync f cwd s = Some f' -> dirs f ⊆ dirs f'.
Proof.
  unfold mkdirSync. destruct (locate f cwd s) as [p|]; [|done].
  destruct (is_dot _); [done|]. destruct (node_at f p); [done|].
  intros [= <-]. simpl. apply union_subseteq_r.
Qed.

Lemma unlinkSync_dirs (f : t) (cwd : list string) (s : string) :
  dirs (unlinkSync f cwd s) = dirs f.
Proof. unfold unlinkSync. by destruct (locate f cwd s). Qed.

Lemma truncate_dirs (f : t) (cwd : list string) (s : string) :
  dirs (truncate f cwd s) = dirs f.
Proof.
  unfold truncate. destruct (locate f cwd s) as [p|]; [|done].
  by destruct (isdir f p || Path.trailingSlash s).
Qed.

Lemma isdir_dirs (f f' : t) (p : list string) :
  dirs f' = dirs f -> isdir f' p = isdir f p.
Proof. unfold isdir. by intros ->. Qed.

Lemma locate_dirs (f f' : t) (cwd : list string) (s : string) :
  dirs f' = dirs f -> locate f' cwd s = locate f cwd s.
Proof.
  intros E. unfold locate. destruct (Path.nonempty s); [|done].
  generalize (if Path.isAbsolute s then [] else cwd) as cur.
  induction (Path.parts s) as [|c cs IH]; simpl; intros cur; [done|].
  rewrite (isdir_dirs f f' cur E). by destruct (isdir f cur).
Qed.

(** After [unlinkSync] there is no file at [s]. *)
Lemma unlinkSync_gone (f : t) (cwd : list string) (s c : string) :
  stat (unlinkSync f cwd s) cwd s <> Some (File c).
Proof.
  unfold stat. rewrite (locate_dirs f) by apply FSFacts.unlinkSync_dirs.
  unfold unlinkSync. destruct (locate f cwd s) as [p|] eqn:E; [|done].
  unfold node_at. simpl. rewrite (isdir_dirs f) by done.
  destruct (isdir f p); [done|]. by rewrite lookup_delete_eq.
Qed.

(** After [truncate] a file at [s] is empty. *)
Lemma truncate_empty (f : t) (cwd : list string) (s c : string) :
  (forall c0, stat f cwd s <> Some (File c0)) ->
  stat (truncate f cwd s) cwd s = Some (File c) -> c = "".
Proof.
  intros Hno. unfold stat at 1. rewrite (locate_dirs f) by apply FSFacts.truncate_dirs.
  unfold truncate. destruct (locate f cwd s) as [p|] eqn:E; [|done].
  destruct (isdir f p) eqn:Ed; simpl.
  { unfold node_at. by rewrite Ed. }
  destruct (Path.trailingSlash s) eqn:Et.
  { unfold node_at. rewrite Ed. by destruct (files f !! p). }
  unfold node_at. simpl. rewrite (isdir_dirs f) by done. rewrite Ed.
  rewrite lookup_insert_eq. simpl. by intros [= <-].
Qed.
End FSFacts.

Lemma grows_refl (w : World) : grows w w.
Proof. by split. Qed.

Lemma grows_trans (w1 w2 w3 : World) : grows w1 w2 -> grows w2 w3 -> grows w1 w3.
Proof. intros [H1 E1] [H2 E2]. split; [by transitivity (FS.dirs (fs w2)) | congruence]. Qed.

Lemma grows_isDirectory (w w' : World) (s : string) :
  grows w w' ->
  FS.isDirectory (fs w) (proc_cwd w) s = true ->
  FS.isDirectory (fs w') (proc_cwd w') s = true.
Proof. intros [H E]. rewrite E. by apply FSFacts.isDirectory_mono. Qed.

Lemma mkdir_effect (s : string) (w w' : World) (r : outcome unit) :
  ShellJS.mkdir s w = (r, w') -> grows w w' /\ same_heap w w'.
Proof.
  unfold ShellJS.mkdir.
  destruct (FS.existsSync _ _ s); [by intros [= <- <-]|].
  destruct (FS.existsSync _ _ _); simpl; [|by intros [= <- <-]].
  destruct (FS.mkdirSync _ _ _) as [f|] eqn:E; intros [= <- <-]; [|done].
  split; [|done]. split; [|done]. simpl. by eapply FSFacts.mkdirSync_dirs.
Qed.

(** ** The monad *)

Section Stable.
Context {S : Type} (R : S -> S -> Prop) `{!PreOrder R}.

Lemma stable_ret {A} (a : A) : stable R (ret a).
Proof. intros s r s' [= <- <-]. reflexivity. Qed.

Lemma stable_throw {A} (e : exn) : stable R (@throw S A e).
Proof. intros s r s' [= <- <-]. reflexivity. Qed.

Lemma stable_gets {A} (f : S -> A) : stable R (gets f).
Proof. intros s r s' [= <- <-]. reflexivity. Qed.

Lemma stable_throw_if (b : bool) (e : exn) : stable R (throw_if b e).
Proof. destruct b; [apply stable_throw | apply stable_ret]. Qed.

Lemma stable_bind {A B} (c : M S A) (k : A -> M S B) :
  stable R c -> (forall a, stable R (k a)) -> stable R (bind c k).
Proof.
  intros Hc Hk s r s'. unfold bind.
  destruct (c s) as [[a|e] s1] eqn:E.
  - intros H. transitivity s1; [by eapply Hc | by eapply Hk].
  - intros [= <- <-]. by eapply Hc.
Qed.
End Stable.

Lemma bind_ok {S A B} (c : M S A) (k : A -> M S B) (s s' : S) (b : B) :
  bind c k s = (Ok b, s') ->
  exists a s1, c s = (Ok a, s1) /\ k a s1 = (Ok b, s').
Proof.
  unfold bind. destruct (c s) as [[a|e] s1]; [|done]. intros H. by exists a, s1.
Qed.

Lemma bind_eq_ok {S A B} (c : M S A) (k : A -> M S B) (s s1 : S) (a : A) :
  c s = (Ok a, s1) -> bind c k s = k a s1.
Proof. unfold bind. by intros ->. Qed.

Lemma bind_eq_throw {S A B} (c : M S A) (k : A -> M S B) (s s1 : S) (e : exn) :
  c s = (Throw e, s1) -> bind c k s = (Throw e, s1).
Proof. unfold bind. by intros ->. Qed.

Lemma throw_if_ok {S} (b : bool) (e : exn) (s s' : S) (u : unit) :
  throw_if b e s = (Ok u, s') -> b = false /\ s' = s.
Proof. destruct b; [done|]. by intros [= <- <-]. Qed.

(** ** The constructor *)

Global Instance scaffolds_preorder : PreOrder scaffolds.
Proof.
  split.
  - intros w. by repeat split.
  - intros w1 w2 w3 [G1 [H1 T1]] [G2 [H2 T2]].
    split; [by eapply grows_trans|]. split; congruence.
Qed.

Ltac stable_step :=
  first [ apply stable_bind; [apply _ | | intros ?]
        | apply stable_ret; apply _
        | apply stable_throw; apply _
        | apply stable_throw_if; apply _
        | apply stable_gets; apply _ ].

Section ConstructorFacts.
Variable V : value -> outcome value.

Lemma validate_stable (R : World -> World -> Prop) `{!Reflexive R} (c : value) :
  stable R (validate V c).
Proof. intros s r s' H. unfold validate in H. by injection H as _ <-. Qed.

Lemma mkdir_scaffolds (s : string) : stable scaffolds (ShellJS.mkdir s).
Proof. intros w r w' H. by eapply mkdir_effect. Qed.

Lemma createProject_scaffolds (cwd : string) (pid : value) :
  stable scaffolds (createProject V cwd pid).
Proof.
  unfold createProject, ShellJS.test_d.
  repeat first [ stable_step | apply mkdir_scaffolds | apply validate_stable; apply _ ].
Qed.

Lemma loadProject_eq (cwd : string) : stable eq (loadProject V cwd).
Proof.
  unfold loadProject.
  repeat first [ stable_step | apply validate_stable; apply _ ].
Qed.

End ConstructorFacts.

Lemma checkPaths_spec (m : Members) (w : World) :
  checkPaths m w =
  (match missing w m with
   | None => Ok tt
   | Some p => Throw (InvalidPathException ("Failed to load, invalid path: " +:+ p))
   end, w).
Proof.
  unfold checkPaths, check_dir, bind, ShellJS.test_d, gets, throw_if, throw, ret,
    missing, layout, is_dir. simpl.
  repeat (match goal with |- context [FS.isDirectory ?f ?c ?s] =>
            destruct (FS.isDirectory f c s); simpl; try reflexivity end).
Qed.

Lemma missing_None (w : World) (m : Members) :
  missing w m = None <-> Forall (fun p => is_dir w p = true) (layout m).
Proof.
  unfold missing. induction (layout m) as [|p l IH]; simpl.
  - split; [constructor | done].
  - destruct (is_dir w p) eqn:E; simpl.
    + rewrite IH. split; [by constructor | by inversion 1].
    + split; [done | inversion 1; congruence].
Qed.

Lemma missing_Some (w : World) (m : Members) (p : string) :
  missing w m = Some p -> In p (layout m) /\ is_dir w p = false.
Proof.
  unfold missing. intros H. apply List.find_some in H as [H1 H2].
  split; [done|]. by apply negb_true_iff.
Qed.

Lemma is_dir_grows (w w' : World) (p : string) :
  grows w w' -> is_dir w p = true -> is_dir w' p = true.
Proof. apply grows_isDirectory. Qed.


Section SetupLogging.

Lemma rm_f_effect (s : string) (w : World) :
  exists w1,
    ShellJS.rm_f s w = (Ok tt, w1) /\
    heap w1 = heap w /\ terminal w1 = terminal w /\
    FS.dirs (fs w1) = FS.dirs (fs w) /\ proc_cwd w1 = proc_cwd w /\
    forall c, FS.stat (fs w1) (proc_cwd w1) s <> Some (FS.File c).
Proof.
  unfold ShellJS.rm_f.
  destruct (FS.stat (fs w) (proc_cwd w) s) as [[|c]|] eqn:E;
    (eexists; split; [reflexivity|]); simpl;
    rewrite ?FSFacts.unlinkSync_dirs; repeat split; try done; try congruence.
  intros c0. apply FSFacts.unlinkSync_gone.
Qed.

(** Lines 89-93 on the heap: two or three fresh objects, the sink, the
    terminal instance unless there is one, and the router. *)
Lemma sinks_heap (m : Members) (path : string) (w : World) :
  exists app w' t,
    (logfileOutput <- new_LogfileOutput path ;;
     terminalOutput <- TerminalOutput_getInstance ;;
     output <- new_OutputTee (VRef logfileOutput) (VRef terminalOutput) ;;
     ret (mkApp m logfileOutput VNull output)) w = (Ok app, w') /\
    fs w' = FS.truncate (fs w) (proc_cwd w) path /\
    proc_cwd w' = proc_cwd w /\
    members app = m /\
    _platformLogfileOutput app = VNull /\
    (_logfileOutput app ∉ dom (heap w)) /\
    (_output app ∉ dom (heap w)) /\
    _output app <> _logfileOutput app /\
    heap w' !! _logfileOutput app = Some (LogfileOutputObj path) /\
    heap w' !! _output app =
      Some (OutputTeeObj (VRef (_logfileOutput app)) (VRef t)) /\
    terminal w' = Some t /\
    (forall t0, terminal w = Some t0 -> t = t0) /\
    (forall l, l ∈ dom (heap w) -> heap w' !! l = heap w !! l).
Proof.
  unfold bind, new_LogfileOutput, bind, modify, alloc,
    TerminalOutput_getInstance, new_OutputTee, alloc, ret, with_fs, with_heap.
  simpl.
  set (l := fresh (dom (heap w))).
  pose proof (is_fresh (dom (heap w))) as Hl. fold l in Hl.
  set (h1 := <[l := LogfileOutputObj path]> (heap w)).
  assert (Hd1 : dom h1 = {[l]} ∪ dom (heap w)) by (subst h1; by rewrite dom_insert_L).
  destruct (terminal w) as [t|] eqn:Et; simpl.
  - set (o := fresh (dom h1)).
    pose proof (is_fresh (dom h1)) as Ho. fold o in Ho. rewrite Hd1 in Ho.
    apply not_elem_of_union in Ho as [Hol%not_elem_of_singleton Ho].
    eexists _, _, t. split; [reflexivity|]. simpl.
    repeat split; try done.
    + rewrite lookup_insert_ne by done. subst h1. by rewrite lookup_insert_eq.
    + by rewrite lookup_insert_eq.
    + by intros t0 [= ->].
    + intros x Hx. rewrite lookup_insert_ne by (by intros ->).
      subst h1. by rewrite lookup_insert_ne by (by intros ->).
  - set (t := fresh (dom h1)).
    pose proof (is_fresh (dom h1)) as Htf. fold t in Htf. rewrite Hd1 in Htf.
    apply not_elem_of_union in Htf as [Htl%not_elem_of_singleton Htf].
    set (h2 := <[t := TerminalOutputObj]> h1).
    set (o := fresh (dom h2)).
    pose proof (is_fresh (dom h2)) as Ho. fold o in Ho.
    assert (Hdom2 : dom h2 = {[t]} ∪ ({[l]} ∪ dom (heap w))).
    { subst h2. by rewrite dom_insert_L, Hd1. }
    rewrite Hdom2 in Ho.
    apply not_elem_of_union in Ho as [Hot%not_elem_of_singleton Ho].
    apply not_elem_of_union in Ho as [Hol%not_elem_of_singleton Ho].
    eexists _, _, t. split; [reflexivity|]. simpl.
    repeat split; try done.
    + rewrite lookup_insert_ne by done. subst h2. rewrite lookup_insert_ne by done.
      subst h1. by rewrite lookup_insert_eq.
    + by rewrite lookup_insert_eq.
    + intros x Hx. rewrite lookup_insert_ne by (by intros ->).
      subst h2. rewrite lookup_insert_ne by (by intros ->).
      subst h1. by rewrite lookup_insert_ne by (by intros ->).
Qed.

(** The logging set-up always returns; this is what it leaves behind. *)
Lemma setupLogging_spec (m : Members) (w : World) :
  exists app w' t,
    setupLogging m w = (Ok app, w') /\
    FS.dirs (fs w') = FS.dirs (fs w) /\
    proc_cwd w' = proc_cwd w /\
    (forall c, FS.stat (fs w') (proc_cwd w') (logfilePath m) = Some (FS.File c) -> c = "") /\
    members app = m /\
    _platformLogfileOutput app = VNull /\
    (_logfileOutput app ∉ dom (heap w)) /\
    (_output app ∉ dom (heap w)) /\
    _output app <> _logfileOutput app /\
    heap w' !! _logfileOutput app = Some (LogfileOutputObj (logfilePath m)) /\
    heap w' !! _output app =
      Some (OutputTeeObj (VRef (_logfileOutput app)) (VRef t)) /\
    terminal w' = Some t /\
    (forall t0, terminal w = Some t0 -> t = t0) /\
    (forall l, l ∈ dom (heap w) -> heap w' !! l = heap w !! l).
Proof.
  destruct (rm_f_effect (logfilePath m) w) as (w1 & Hrm & Hh & Ht & Hd & Hc & Hgone).
  destruct (sinks_heap m (logfilePath m) w1)
    as (app & w' & t & Hs & Hfs & Hc' & H1 & H2 & H3 & H4 & H5 & H6 & H7 & H8 & H9 & H10).
  exists app, w', t.
  split.
  { unfold setupLogging. fold (logfilePath m).
    rewrite (bind_eq_ok _ _ _ _ _ Hrm). exact Hs. }
  rewrite Hh in *. rewrite Ht in *.
  repeat split; try done.
  - by rewrite Hfs, FSFacts.truncate_dirs.
  - congruence.
  - intros c. rewrite Hfs, Hc'. by apply FSFacts.truncate_empty.
Qed.

Lemma setupLogging_is_dir (m : Members) (w w' : World) (r : outcome AppObject) (p : string) :
  setupLogging m w = (r, w') -> is_dir w' p = is_dir w p.
Proof.
  destruct (setupLogging_spec m w) as (app & w2 & t & -> & Hd & Hc & _).
  intros [= _ <-]. unfold is_dir. rewrite Hc.
  by apply FSFacts.isDirectory_dirs.
Qed.

End SetupLogging.


(** ** The sinks *)

Ltac proj_simpl :=
  cbn [snd fst world this heap with_heap with_fs members fs proc_cwd terminal
       _logfileOutput _output _platformLogfileOutput] in *.

Lemma instanceof_ref (h : gmap loc obj) (v : value) :
  instanceof_LogfileOutput h v = true ->
  exists l path, v = VRef l /\ h !! l = Some (LogfileOutputObj path).
Proof.
  destruct v as [| | | |l]; try done. simpl.
  destruct (h !! l) as [[path| |]|] eqn:E; try done. by exists l, path.
Qed.

(** The setter, case by case. *)
Lemma set_platformLogfileOutput_sink (v : value) (st : State) :
  instanceof_LogfileOutput (heap (world st)) v = true ->
  set_platformLogfileOutput v st =
  (Ok tt,
   mkState (mkApp (members (this st)) (_logfileOutput (this st)) v (_output (this st)))
           (with_heap (world st)
              (alter (fun o => match o with
                               | OutputTeeObj _ t => OutputTeeObj v t
                               | o => o
                               end) (_output (this st)) (heap (world st))))).
Proof.
  intros H. unfold set_platformLogfileOutput, bind at 1, gets at 1. by rewrite H.
Qed.

Lemma set_platformLogfileOutput_null (st : State) :
  set_platformLogfileOutput VNull st =
  (Ok tt,
   mkState (mkApp (members (this st)) (_logfileOutput (this st)) VNull (_output (this st)))
           (with_heap (world st)
              (alter (fun o => match o with
                               | OutputTeeObj _ t => OutputTeeObj (VRef (_logfileOutput (this st))) t
                               | o => o
                               end) (_output (this st)) (heap (world st))))).
Proof. reflexivity. Qed.

Lemma set_platformLogfileOutput_other (v : value) (st : State) :
  instanceof_LogfileOutput (heap (world st)) v = false ->
  v <> VNull ->
  set_platformLogfileOutput v st =
  (Throw (IllegalAccessException
            "Attempting invalid write to property Application.platformLogfileOutput"), st).
Proof.
  intros H Hn. unfold set_platformLogfileOutput, bind at 1, gets at 1. rewrite H.
  by rewrite bool_decide_eq_false_2.
Qed.

Lemma set_platformLogfileOutput_cases (v : value) (st : State) :
  instanceof_LogfileOutput (heap (world st)) v = true
  \/ v = VNull
  \/ (instanceof_LogfileOutput (heap (world st)) v = false /\ v <> VNull).
Proof.
  destruct (instanceof_LogfileOutput _ v); [by left|right].
  destruct (decide (v = VNull)); [by left | by right].
Qed.

Lemma wired_set_platformLogfileOutput (lf o t : loc) (path : string) (v : value) (st : State) :
  wired lf o t path st -> wired lf o t path (snd (set_platformLogfileOutput v st)).
Proof.
  intros (Hlf & Ho & Hcommon & sec & Htee & Hsec).
  assert (Hne : o <> lf) by (intros ->; congruence).
  destruct (set_platformLogfileOutput_cases v st) as [Hv|[->|[Hv Hn]]].
  - rewrite set_platformLogfileOutput_sink by done. unfold wired; proj_simpl.
    destruct (instanceof_ref _ _ Hv) as (p & q & -> & Hp).
    assert (o <> p) by (intros ->; congruence).
    repeat split; try done.
    + rewrite Ho, lookup_alter_ne by done. done.
    + exists (VRef p). rewrite Ho, lookup_alter_eq, Htee. split; [done|].
      right. repeat split; try done. simpl. by rewrite lookup_alter_ne, Hp.
  - rewrite set_platformLogfileOutput_null. unfold wired; proj_simpl.
    repeat split; try done.
    + rewrite Ho, lookup_alter_ne by done. done.
    + exists (VRef lf). rewrite Ho, Hlf, lookup_alter_eq, Htee. split; [done|]. by left.
  - rewrite set_platformLogfileOutput_other by done. unfold wired; proj_simpl.
    repeat split; try done. by exists sec.
Qed.

Lemma wired_new_LogfileOutput (lf o t : loc) (path path' : string) (st : State) :
  wired lf o t path st ->
  wired lf o t path (snd (perform (NewLogfileOutput path') st)).
Proof.
  intros (Hlf & Ho & Hcommon & sec & Htee & Hsec).
  unfold perform, bind, lift, new_LogfileOutput, bind, modify, alloc, ret.
  unfold wired; proj_simpl.
  set (l := fresh (dom (heap (world st)))).
  pose proof (is_fresh (dom (heap (world st)))) as Hl. fold l in Hl.
  assert (Hin : forall x y, heap (world st) !! x = Some y -> l <> x).
  { intros x y Hx ->. apply Hl, elem_of_dom. by eexists. }
  repeat split; try done.
  - rewrite lookup_insert_ne by eauto. done.
  - exists sec. rewrite lookup_insert_ne by eauto. split; [done|].
    destruct Hsec as [?|(H1 & H2 & H3)]; [by left|right].
    repeat split; try done.
    destruct (instanceof_ref _ _ H3) as (p & q & -> & Hp). simpl.
    rewrite lookup_insert_ne by eauto. by rewrite Hp.
Qed.

Lemma wired_perform (lf o t : loc) (path : string) (c : call) (st : State) :
  wired lf o t path st -> wired lf o t path (snd (perform c st)).
Proof.
  destruct c as [v|v|v|p]; simpl; try done.
  - apply wired_set_platformLogfileOutput.
  - apply wired_new_LogfileOutput.
Qed.

Lemma wired_run (lf o t : loc) (path : string) (cs : list call) (st : State) :
  wired lf o t path st -> wired lf o t path (run cs st).
Proof.
  revert st. induction cs as [|c cs IH]; simpl; intros st H; [done|].
  by apply IH, wired_perform.
Qed.

(** ** The constructor, as a whole *)

Section ApplicationFacts.
Variable V : value -> outcome value.

(** The constructor, with its two tests on [cwd] evaluated. *)
Lemma Application_unfold (cwd : string) (pid : value) (w : World) :
  Application V cwd pid w =
  if cwd_rejected w cwd
  then (Throw (InvalidPathException ("Path not absolute: " +:+ cwd)), w)
  else if negb (is_dir w cwd)
  then (Throw (InvalidPathException ("Path does not exist: " +:+ cwd)), w)
  else (this <- (if truthy pid then createProject V cwd pid else loadProject V cwd) ;;
        checkPaths this ;;; setupLogging this) w.
Proof.
  unfold Application, cwd_rejected, is_dir, process_cwd, ShellJS.test_d.
  unfold bind at 1. unfold gets at 1. cbv beta iota.
  unfold bind at 1.
  destruct (negb (truthy (VStr cwd)) || _); [done|]. simpl throw_if. cbv beta iota.
  unfold ret at 1. unfold bind at 1. unfold gets at 1. cbv beta iota.
  unfold bind at 1.
  by destruct (negb _).
Qed.

Lemma createProject_ok (cwd : string) (pid : value) (w w1 : World) (m : Members) :
  createProject V cwd pid w = (Ok m, w1) ->
  exists v, V pid = Ok v /\ m = initMembers v cwd /\ is_dir w (_rootPath m) = false.
Proof.
  unfold createProject. intros H.
  apply bind_ok in H as (v & w2 & Hv & H). unfold validate in Hv.
  injection Hv as Hv <-.
  apply bind_ok in H as (taken & w3 & Ht & H).
  unfold ShellJS.test_d, gets in Ht. injection Ht as <- <-.
  apply bind_ok in H as (u & w4 & Hc & H). apply throw_if_ok in Hc as [Hc ->].
  repeat (apply bind_ok in H as (? & ? & _ & H)).
  injection H as <- _. by exists v.
Qed.

Lemma createProject_conflict (cwd : string) (pid v : value) (w : World) :
  V pid = Ok v ->
  is_dir w (_rootPath (initMembers v cwd)) = true ->
  createProject V cwd pid w =
  (Throw (InvalidPathException
            ("Failed to create project, path already exists: "
             +:+ _rootPath (initMembers v cwd))), w).
Proof.
  intros Hv Hd. unfold createProject, validate, bind at 1. rewrite Hv.
  unfold bind at 1, ShellJS.test_d, gets. fold (is_dir w (_rootPath (initMembers v cwd))).
  by rewrite Hd.
Qed.

Lemma loadProject_spec (cwd : string) (w : World) :
  loadProject V cwd w =
  match V (VStr (Path.basename cwd)) with
  | Ok v =>
      if truthy v then (Ok (initMembers v (Path.dirname cwd)), w)
      else (Throw (InvalidPathException
                     ("Path does not seem to be a project toplevel: " +:+ cwd)), w)
  | Throw e => (Throw e, w)
  end.
Proof.
  unfold loadProject, validate, bind. destruct (V _) as [v|e]; [|done].
  by destruct (truthy v).
Qed.

(** A constructor call that returns went through a branch, then the five
    checks, then the logging set-up. *)
Lemma Application_ok (cwd : string) (pid : value) (w w' : World) (app : AppObject) :
  Application V cwd pid w = (Ok app, w') ->
  cwd_rejected w cwd = false /\ is_dir w cwd = true /\
  exists m w1,
    (if truthy pid then createProject V cwd pid else loadProject V cwd) w = (Ok m, w1) /\
    missing w1 m = None /\
    setupLogging m w1 = (Ok app, w') /\
    members app = m.
Proof.
  rewrite Application_unfold.
  destruct (cwd_rejected w cwd); [done|].
  destruct (is_dir w cwd); [|done]. simpl. intros H.
  apply bind_ok in H as (m & w1 & Hb & H).
  apply bind_ok in H as (u & w2 & Hc & H).
  rewrite checkPaths_spec in Hc.
  destruct (missing w1 m) eqn:Hm; [done|]. injection Hc as _ <-.
  repeat split; try done. exists m, w1. repeat split; try done.
  destruct (setupLogging_spec m w1) as (app' & w'' & t & Hs & _ & _ & _ & Hmem & _).
  rewrite Hs in H. by injection H as <- _.
Qed.

Lemma cwd_rejected_same (w w' : World) (cwd : string) :
  proc_cwd w' = proc_cwd w -> cwd_rejected w' cwd = cwd_rejected w cwd.
Proof. unfold cwd_rejected, cwd_string. by intros ->. Qed.

(** What a returning constructor call leaves of the directories it
    started with, and of the ones it checked. *)
Lemma Application_dirs (cwd : string) (pid : value) (w w' : World) (app : AppObject) :
  Application V cwd pid w = (Ok app, w') ->
  grows w w' /\ Forall (fun p => is_dir w' p = true) (layout (members app)).
Proof.
  intros (_ & _ & m & w1 & Hb & Hm & Hs & ->)%Application_ok.
  assert (Hg : grows w w1).
  { destruct (truthy pid).
    - by apply createProject_scaffolds in Hb as [Hg _].
    - apply loadProject_eq in Hb as ->. apply grows_refl. }
  destruct (setupLogging_spec m w1) as (app' & w'' & t & Hs' & Hd & Hc & _).
  rewrite Hs' in Hs. injection Hs as <- <-.
  split.
  - eapply grows_trans; [exact Hg|]. split; [by rewrite Hd | done].
  - apply missing_None in Hm. eapply Forall_impl; [exact Hm|].
    intros p Hp. simpl in Hp. by rewrite (setupLogging_is_dir _ _ _ _ p Hs').
Qed.

Lemma cwd_string_absolute (w : World) : Path.isAbsolute (cwd_string w) = true.
Proof. reflexivity. Qed.

Lemma accepted_absolute (w : World) (cwd : string) :
  cwd_rejected w cwd = false -> Path.isAbsolute cwd = true.
Proof.
  unfold cwd_rejected. intros [_ H]%orb_false_iff.
  apply negb_false_iff, String.eqb_eq in H.
  destruct (Path.isAbsolute cwd) eqn:E; [done|].
  by apply PathFacts.relative_not_resolved in H.
Qed.

Lemma Application_wired (cwd : string) (pid : value) (w w' : World) (app : AppObject) :
  Application V cwd pid w = (Ok app, w') ->
  exists t,
    wired (_logfileOutput app) (_output app) t (logfilePath (members app)) (mkState app w') /\
    _platformLogfileOutput app = VNull /\ terminal w' = Some t.
Proof.
  intros (_ & _ & m & w1 & _ & _ & Hs & Hm)%Application_ok.
  destruct (setupLogging_spec m w1)
    as (app' & w'' & t & Hs' & _ & _ & _ & Hmem & Hplat & _ & _ & _ & Hlf & Ho & Ht & _).
  rewrite Hs' in Hs. injection Hs as <- <-.
  exists t. rewrite Hmem. repeat split; try done.
  exists (VRef (_logfileOutput app')). split; [done|]. by left.
Qed.

(** ** The claims about the constructor *)

(** C1.  In create mode, when the computed root is already a directory the
    constructor throws [InvalidPathException] with the message "Failed to
    create project, path already exists" (the spec's PathConflict) and
    leaves the world as it found it: no directory has been created.  A
    second create call with the same [cwd] and [packageId], made in the
    world the first one left, ends that way, so what the first call created
    is untouched. *)
Theorem create_conflict (cwd : string) (pid v : value) (w : World) :
  truthy pid = true ->
  cwd_rejected w cwd = false ->
  is_dir w cwd = true ->
  V pid = Ok v ->
  let conflict :=
    Throw (InvalidPathException
             ("Failed to create project, path already exists: "
              +:+ _rootPath (initMembers v cwd))) in
  (is_dir w (_rootPath (initMembers v cwd)) = true ->
   Application V cwd pid w = (conflict, w))
  /\
  (forall app w',
     Application V cwd pid w = (Ok app, w') ->
     Application V cwd pid w' = (conflict, w') /\
     Forall (fun p => is_dir w' p = true) (layout (members app))).
Proof.
  intros Hp Ha Hd Hv conflict. split.
  - intros Hroot. rewrite Application_unfold, Ha, Hd, Hp. simpl.
    by rewrite (bind_eq_throw _ _ _ _ _ (createProject_conflict cwd pid v w Hv Hroot)).
  - intros app w' Hok.
    pose proof (Application_dirs _ _ _ _ _ Hok) as [Hg Hall].
    split; [|done].
    apply Application_ok in Hok as (_ & _ & m & w1 & Hb & _ & _ & Hm).
    rewrite Hp in Hb. apply createProject_ok in Hb as (v' & Hv' & -> & _).
    assert (v' = v) by congruence. subst v'.
    assert (Hroot : is_dir w' (_rootPath (initMembers v cwd)) = true).
    { rewrite Hm in Hall. by inversion Hall. }
    rewrite Application_unfold, (cwd_rejected_same w) by apply Hg.
    rewrite Ha, (is_dir_grows w w' cwd Hg Hd), Hp. simpl.
    by rewrite (bind_eq_throw _ _ _ _ _ (createProject_conflict cwd pid v w' Hv Hroot)).
Qed.

(** C3.  Loading what was created.  After a create call on [base] that
    returned an instance whose [packageId] is the directory name [id], a
    load call (any falsy [packageId]) on the created root returns an
    instance with the same [packageId] and the same five paths: the base
    name of [cwd] is [id] and its parent is [base].  The validator has to
    accept [id] again when it is handed the base name.  [cwd] is the
    [rootPath] of the created instance; when [base] is the root directory
    it is [/id].  ([Path.dirname] of a path that begins with two slashes
    has differed between Node releases, and the statement keeps to the
    paths on which it has not.) *)
Theorem load_after_create
    (base : string) (pid pid' : value) (id : string) (w w' : World)
    (app : AppObject) (cwd : string) :
  truthy pid = true ->
  truthy pid' = false ->
  Application V base pid w = (Ok app, w') ->
  _packageId (members app) = VStr id ->
  Path.segment id = true ->
  V (VStr id) = Ok (VStr id) ->
  (Path.trailingSlash base = false /\ cwd = _rootPath (members app))
  \/ (base = "/" /\ cwd = "/" +:+ id) ->
  _rootPath (members app) = base +:+ "/" +:+ id /\
  Path.basename cwd = id /\
  Path.dirname cwd = base /\
  exists app' w'',
    Application V cwd pid' w' = (Ok app', w'') /\
    members app' = members app.
Proof.
  intros Hp Hp' Hok Hid Hseg Hv Hcwd.
  pose proof (Application_dirs _ _ _ _ _ Hok) as [Hg Hall].
  apply Application_ok in Hok as (Ha & _ & m & w1 & Hb & _ & _ & Hm).
  rewrite Hp in Hb. apply createProject_ok in Hb as (v & _ & -> & _).
  rewrite Hm in *. simpl in Hid. subst v.
  apply accepted_absolute in Ha.
  assert (Hroot : _rootPath (initMembers (VStr id) base) = base +:+ "/" +:+ id) by done.
  assert (Hrd : is_dir w' (base +:+ "/" +:+ id) = true).
  { rewrite <- Hroot. by inversion Hall. }
  assert (Hfacts : Path.basename cwd = id /\ Path.dirname cwd = base
                   /\ cwd_rejected w' cwd = false /\ is_dir w' cwd = true).
  { destruct Hcwd as [[_ ->]|[-> ->]].
    - rewrite Hroot. repeat split.
      + by apply PathFacts.basename_child.
      + by apply PathFacts.dirname_child.
      + unfold cwd_rejected. rewrite PathFacts.child_resolved by done.
        rewrite String.eqb_refl. by destruct base.
      + done.
    - repeat split.
      + by apply PathFacts.basename_top.
      + by apply PathFacts.dirname_top.
      + unfold cwd_rejected. rewrite PathFacts.resolve_normalize.
        * by rewrite String.eqb_refl.
        * done.
        * apply andb_true_iff in Hseg as Hs. destruct Hs as [Hne _].
          rewrite PathFacts.trailingSlash_app by done.
          by apply PathFacts.trailingSlash_segment.
      + unfold is_dir in *.
        by rewrite (FSFacts.isDirectory_same_parts _ _ ("/" +:+ id) ("/" +:+ "/" +:+ id)). }
  destruct Hfacts as (Hbn & Hdn & Hacc & Hd).
  repeat split; try done.
  destruct (setupLogging_spec (initMembers (VStr id) base) w')
    as (app' & w'' & t & Hs & _ & _ & _ & Hmem & _).
  exists app', w''. split; [|done].
  rewrite Application_unfold, Hacc, Hd, Hp'. simpl.
  assert (Hload : loadProject V cwd w' = (Ok (initMembers (VStr id) base), w')).
  { rewrite loadProject_spec, Hbn, Hv, Hdn.
    apply andb_true_iff in Hseg as [Hne _]. simpl. unfold Path.nonempty in Hne.
    by rewrite Hne. }
  rewrite (bind_eq_ok _ _ _ _ _ Hload).
  assert (Hchk : checkPaths (initMembers (VStr id) base) w' = (Ok tt, w')).
  { rewrite checkPaths_spec. by apply missing_None in Hall as ->. }
  by rewrite (bind_eq_ok _ _ _ _ _ Hchk).
Qed.

(** C4, as the code has it.  The constructor throws [InvalidPathException]
    and leaves the world alone, whatever the validator and the [packageId],
    when [cwd] is empty, when it is relative, when it is absolute and ends
    in a slash without being the root, more generally when
    [Path.resolve(cwd)] differs from [Path.normalize(cwd)], and when [cwd]
    is not a directory. *)
Theorem cwd_validation (cwd : string) (pid : value) (w : World) :
  cwd = "" \/ Path.isAbsolute cwd = false
  \/ (Path.trailingSlash cwd = true /\ Path.normalize cwd <> "/")
  \/ Path.resolve (cwd_string w) cwd <> Path.normalize cwd
  \/ is_dir w cwd = false ->
  exists msg,
    Application V cwd pid w = (Throw (InvalidPathException msg), w) /\
    (msg = "Path not absolute: " +:+ cwd \/ msg = "Path does not exist: " +:+ cwd).
Proof.
  intros H. rewrite Application_unfold.
  destruct (cwd_rejected w cwd) eqn:Hr; [by eexists; split; [|left]|].
  pose proof (accepted_absolute w cwd Hr) as Habs.
  unfold cwd_rejected in Hr. apply orb_false_iff in Hr as [Hne Heq].
  apply negb_false_iff, String.eqb_eq in Heq.
  destruct H as [->|[H|[[H1 H2]|[H|H]]]]; [done|congruence| |done|].
  { by apply (trailing_not_resolved (cwd_string w)) in H2. }
  rewrite H. simpl. by eexists; split; [|right].
Qed.

(** C5.  Once a branch has returned, the constructor checks the five
    paths: if one is missing it throws [InvalidPathException] "Failed to
    load, invalid path" on the first missing one.  So an instance that was
    returned has its five directories, and in load mode a missing
    directory among the five makes the call throw [InvalidPathException]
    whenever the validator returns. *)
Theorem paths_checked (cwd : string) (pid : value) (w : World) :
  (forall m w1 p,
     cwd_rejected w cwd = false -> is_dir w cwd = true ->
     (if truthy pid then createProject V cwd pid else loadProject V cwd) w = (Ok m, w1) ->
     missing w1 m = Some p ->
     Application V cwd pid w =
       (Throw (InvalidPathException ("Failed to load, invalid path: " +:+ p)), w1)
     /\ In p (layout m) /\ is_dir w1 p = false)
  /\
  (forall app w',
     Application V cwd pid w = (Ok app, w') ->
     Forall (fun p => is_dir w' p = true) (layout (members app)))
  /\
  (forall v p,
     truthy pid = false ->
     V (VStr (Path.basename cwd)) = Ok v ->
     In p (layout (initMembers v (Path.dirname cwd))) ->
     is_dir w p = false ->
     exists msg, Application V cwd pid w = (Throw (InvalidPathException msg), w)).
Proof.
  split; [|split].
  - intros m w1 p Ha Hd Hb Hm. split; [|by apply missing_Some].
    rewrite Application_unfold, Ha, Hd. simpl.
    rewrite (bind_eq_ok _ _ _ _ _ Hb).
    assert (Hc : checkPaths m w1
                 = (Throw (InvalidPathException ("Failed to load, invalid path: " +:+ p)), w1)).
    { by rewrite checkPaths_spec, Hm. }
    by rewrite (bind_eq_throw _ _ _ _ _ Hc).
  - intros app w' Hok. by apply Application_dirs in Hok as [_ H].
  - intros v p Hp Hv Hin Hmiss. rewrite Application_unfold.
    destruct (cwd_rejected w cwd); [by eexists|].
    destruct (is_dir w cwd); [|by eexists]. simpl. rewrite Hp.
    unfold bind at 1. rewrite loadProject_spec, Hv.
    destruct (truthy v); [|by eexists].
    unfold bind at 1. rewrite checkPaths_spec.
    destruct (missing w (initMembers v (Path.dirname cwd))) as [q|] eqn:Hm; [by eexists|].
    apply missing_None in Hm. rewrite Forall_forall in Hm.
    apply list_elem_of_In, Hm in Hin. congruence.
Qed.




End ApplicationFacts.

(** ** The claims about the layout and the setters *)

(** C2.  [initMembers] keeps the [packageId] and computes the root as
    [basePath], the separator and the [packageId] as a string, and each of
    the four other paths as the root, the separator and its name.  It is a
    function of its two arguments alone; the world is no argument of it.
    When [basePath] is absolute and the root does not end in a slash, the
    four are direct children of the root: [Path.dirname] gives the root
    back and [Path.basename] the name. *)
Theorem path_layout (basePath : string) (packageId : value) :
  let m := initMembers packageId basePath in
  (_packageId m = packageId /\
   _rootPath m = basePath +:+ Path.sep +:+ to_string packageId /\
   _appPath m = _rootPath m +:+ Path.sep +:+ "app" /\
   _logPath m = _rootPath m +:+ Path.sep +:+ "log" /\
   _pkgPath m = _rootPath m +:+ Path.sep +:+ "pkg" /\
   _prjPath m = _rootPath m +:+ Path.sep +:+ "prj")
  /\
  (Path.isAbsolute basePath = true ->
   Path.trailingSlash (_rootPath m) = false ->
   Forall (fun '(p, name) =>
             Path.dirname p = _rootPath m /\ Path.basename p = name)
          [(_appPath m, "app"); (_logPath m, "log");
           (_pkgPath m, "pkg"); (_prjPath m, "prj")]).
Proof.
  intros m. split; [done|]. intros Ha _.
  assert (Hr : Path.isAbsolute (_rootPath m) = true).
  { simpl. rewrite PathFacts.isAbsolute_app; [done|]. by destruct basePath. }
  repeat constructor; simpl;
    first [ by apply PathFacts.dirname_child | by apply PathFacts.basename_child ].
Qed.

(** C7.  Assigning [output] or [config] throws [IllegalAccessException], and
    so does assigning [platformLogfileOutput] a value that is neither a
    [LogfileOutput] nor [null]; the instance and the world are the ones the
    assignment found. *)
Theorem illegal_writes (st : State) (v : value) :
  set_output v st =
    (Throw (IllegalAccessException
              "Attempting to write read-only property Application.output"), st)
  /\
  set_config v st =
    (Throw (IllegalAccessException
              "Attempting to write read-only property Application.config"), st)
  /\
  (instanceof_LogfileOutput (heap (world st)) v = false ->
   v <> VNull ->
   set_platformLogfileOutput v st =
     (Throw (IllegalAccessException
               "Attempting invalid write to property Application.platformLogfileOutput"),
      st)).
Proof.
  split; [done|]. split; [done|]. apply set_platformLogfileOutput_other.
Qed.

(** C10.  The [platformLogfileOutput] setter, whatever it is given, leaves
    the [packageId], the five paths, the common sink and the router where
    they are, the filesystem and the terminal instance as they are, and
    every object of the heap but the router as it is; the router keeps its
    terminal sink. *)
Theorem setter_frame (st : State) (v : value) :
  let st' := snd (set_platformLogfileOutput v st) in
  members (this st') = members (this st) /\
  _logfileOutput (this st') = _logfileOutput (this st) /\
  _output (this st') = _output (this st) /\
  fs (world st') = fs (world st) /\
  proc_cwd (world st') = proc_cwd (world st) /\
  terminal (world st') = terminal (world st) /\
  primary_sink st' = primary_sink st /\
  (forall l, l <> _output (this st) ->
             heap (world st') !! l = heap (world st) !! l) /\
  (forall path,
     heap (world st) !! _logfileOutput (this st) = Some (LogfileOutputObj path) ->
     heap (world st') !! _logfileOutput (this st) = Some (LogfileOutputObj path)).
Proof.
  intros st'. subst st'.
  destruct (set_platformLogfileOutput_cases v st) as [Hv|[->|[Hv Hn]]].
  - rewrite set_platformLogfileOutput_sink by done. proj_simpl.
    repeat split; try done.
    + unfold primary_sink. proj_simpl. rewrite lookup_alter_eq.
      by destruct (heap (world st) !! _output (this st)) as [[]|].
    + intros l Hl. by rewrite lookup_alter_ne.
    + intros path Hp. rewrite lookup_alter.
      case_decide as E; [rewrite E|]; by rewrite Hp.
  - rewrite set_platformLogfileOutput_null. proj_simpl.
    repeat split; try done.
    + unfold primary_sink. proj_simpl. rewrite lookup_alter_eq.
      by destruct (heap (world st) !! _output (this st)) as [[]|].
    + intros l Hl. by rewrite lookup_alter_ne.
    + intros path Hp. rewrite lookup_alter.
      case_decide as E; [rewrite E|]; by rewrite Hp.
  - by rewrite set_platformLogfileOutput_other.
Qed.

(** ** The claims at concrete inputs *)

Import Examples.

Lemma created_example : Application validator "/work" foo w0 = (Ok app1, w1).
Proof. vm_compute. reflexivity. Qed.

Lemma create_conflict_witness :
  Application validator "/work" foo w1
  = (Throw (InvalidPathException
              "Failed to create project, path already exists: /work/com.example.foo"),
     w1)
  /\ Forall (fun p => is_dir w1 p = true) (layout (members app1)).
Proof.
  refine (proj2 (create_conflict validator "/work" foo foo w0 _ _ _ _) app1 w1 _).
  all: vm_compute; reflexivity.
Defined.

Lemma path_layout_witness :
  Path.dirname "/work/com.example.foo/app" = "/work/com.example.foo"
  /\ Path.basename "/work/com.example.foo/app" = "app".
Proof.
  refine (Forall_inv (proj2 (path_layout "/work" foo) _ _)).
  all: reflexivity.
Defined.

Lemma load_after_create_witness :
  exists app' w'',
    Application validator "/work/com.example.foo" VUndefined w1 = (Ok app', w'')
    /\ members app' = members app1.
Proof.
  refine (proj2 (proj2 (proj2
    (load_after_create validator "/work" foo VUndefined "com.example.foo" w0 w1 app1
       "/work/com.example.foo" _ _ _ _ _ _ _)))).
  all: try (vm_compute; reflexivity).
  left. split; reflexivity.
Defined.

Lemma cwd_validation_witness :
  exists msg,
    Application validator "work" foo w0 = (Throw (InvalidPathException msg), w0)
    /\ (msg = "Path not absolute: work" \/ msg = "Path does not exist: work").
Proof.
  refine (cwd_validation validator "work" foo w0 _).
  right. left. reflexivity.
Defined.

(** C4, as the spec words it, fails: [/work/../work] is not in normalized
    form, and the constructor accepts it and creates the project in it. *)
Lemma noncanonical_cwd_accepted :
  Path.normalize "/work/../work" <> "/work/../work"
  /\ exists app w',
       Application validator "/work/../work" foo w0 = (Ok app, w')
       /\ _rootPath (members app) = "/work/../work/com.example.foo".
Proof.
  split.
  - vm_compute. discriminate.
  - eexists _, _. vm_compute. split; reflexivity.
Qed.

Lemma paths_checked_witness :
  exists msg,
    Application validator "/work/com.example.foo" VUndefined w_bare
    = (Throw (InvalidPathException msg), w_bare).
Proof.
  refine (proj2 (proj2 (paths_checked validator "/work/com.example.foo" VUndefined w_bare))
            foo "/work/com.example.foo/app" _ _ _ _).
  - reflexivity.
  - reflexivity.
  - right. left. reflexivity.
  - vm_compute. reflexivity.
Defined.


Lemma illegal_writes_witness :
  set_platformLogfileOutput (VStr "x") st1
  = (Throw (IllegalAccessException
              "Attempting invalid write to property Application.platformLogfileOutput"),
     st1).
Proof.
  refine (proj2 (proj2 (illegal_writes st1 (VStr "x"))) _ _).
  - vm_compute. reflexivity.
  - discriminate.
Defined.



Lemma setter_frame_witness :
  heap (world (snd (set_platformLogfileOutput VNull st1))) !! 1%positive
  = Some (LogfileOutputObj "/work/com.example.foo/log/common.log").
Proof.
  refine (proj2 (proj2 (proj2 (proj2 (proj2 (proj2 (proj2 (proj2
            (setter_frame st1 VNull)))))))) _ _).
  vm_compute. reflexivity.
Defined.

(** * Further properties *)

(** ** The test on [cwd] *)

(** On an absolute path that normalizes to the root, [resolve] says the
    root as well. *)
Lemma root_resolved (pcwd p : string) :
  Path.isAbsolute p = true -> Path.normalize p = "/" -> Path.resolve pcwd p = "/".
Proof.
  intros Ha. unfold Path.resolve, Path.normalize.
  assert (Hne : Path.nonempty p = true) by (by destruct p).
  rewrite Hne, Ha. simpl. rewrite PathFacts.parts_app_slash, !andb_false_r.
  set (body := Path.join_parts (Path.normalizeArray (Path.parts p) false)).
  destruct (Path.nonempty body && Path.trailingSlash p) eqn:E; [|done].
  intros H. apply (f_equal String.length) in H.
  rewrite !length_append in H. simpl in H.
  destruct body; [done|]. simpl in H. lia.
Qed.

(** X1.  The test of lines 29-30 lets [cwd] through exactly when it is
    absolute and either does not end in a slash or normalizes to the root;
    [process.cwd()] has no part in the outcome. *)
Theorem cwd_test_exact (w : World) (cwd : string) :
  cwd_rejected w cwd = false <->
  Path.isAbsolute cwd = true /\
  (Path.trailingSlash cwd = false \/ Path.normalize cwd = "/").
Proof.
  split.
  - intros Hacc. pose proof (accepted_absolute w cwd Hacc) as Ha.
    split; [done|].
    destruct (Path.trailingSlash cwd) eqn:Ht; [|by left]. right.
    destruct (decide (Path.normalize cwd = "/")) as [|Hn]; [done|].
    apply (trailing_not_resolved (cwd_string w)) in Hn; [|done..].
    unfold cwd_rejected in Hacc. apply orb_false_iff in Hacc as [_ H].
    by apply negb_false_iff, String.eqb_eq in H.
  - intros [Ha Hc]. unfold cwd_rejected.
    assert (Hne : truthy (VStr cwd) = true) by (by destruct cwd).
    rewrite Hne. simpl. apply negb_false_iff, String.eqb_eq.
    destruct (Path.trailingSlash cwd) eqn:Ht.
    + destruct Hc as [|Hn]; [done|]. rewrite Hn. by apply root_resolved.
    + by apply PathFacts.resolve_normalize.
Qed.

(** ** What a constructor call touches *)

Global Instance mkdirs_only_preorder : PreOrder mkdirs_only.
Proof.
  split.
  - intros w. split; [reflexivity | done].
  - intros w1 w2 w3 [S1 F1] [S2 F2]. split; [by transitivity w2 | congruence].
Qed.

Lemma mkdir_mkdirs_only (s : string) : stable mkdirs_only (ShellJS.mkdir s).
Proof.
  intros w r w' H. split; [by eapply mkdir_effect|].
  unfold ShellJS.mkdir in H.
  destruct (FS.existsSync _ _ s); [by injection H as _ <-|].
  destruct (FS.existsSync _ _ _); simpl in H; [|by injection H as _ <-].
  destruct (FS.mkdirSync _ _ _) as [f|] eqn:E; injection H as _ <-; [|done].
  simpl. unfold FS.mkdirSync in E.
  destruct (FS.locate _ _ _); [|done]. destruct (FS.is_dot _); [done|].
  destruct (FS.node_at _ _); [done|]. by injection E as <-.
Qed.

Section ConstructorEffects.
Variable V : value -> outcome value.

Lemma createProject_mkdirs_only (cwd : string) (pid : value) :
  stable mkdirs_only (createProject V cwd pid).
Proof.
  unfold createProject, ShellJS.test_d.
  repeat first [ stable_step | apply mkdir_mkdirs_only | apply validate_stable; apply _ ].
Qed.

(** X2.  When the validator raises on the candidate (the [packageId] in
    create mode, the base name of [cwd] in load mode), the constructor ends
    with that exception and the world is as it was: nothing has been
    created. *)
Theorem validator_exception_propagates
    (cwd : string) (pid : value) (w : World) (e : exn) :
  cwd_rejected w cwd = false ->
  is_dir w cwd = true ->
  V (candidate cwd pid) = Throw e ->
  Application V cwd pid w = (Throw e, w).
Proof.
  intros Ha Hd Hv. rewrite Application_unfold, Ha, Hd. simpl.
  unfold candidate in Hv. unfold bind at 1.
  destruct (truthy pid).
  - unfold createProject, bind at 1, validate. by rewrite Hv.
  - by rewrite loadProject_spec, Hv.
Qed.


Lemma setupLogging_returns (m : Members) (w w' : World) (r : outcome AppObject) :
  setupLogging m w = (r, w') -> exists app, r = Ok app.
Proof.
  destruct (setupLogging_spec m w) as (app & w2 & t & -> & _).
  intros [= <- _]. by exists app.
Qed.

(** X5.  A constructor call that throws has allocated no object, has not
    obtained the terminal instance and has touched no file; directories it
    may have created remain, and in load mode the world is untouched. *)
Theorem failed_construction
    (cwd : string) (pid : value) (w w' : World) (e : exn) :
  Application V cwd pid w = (Throw e, w') ->
  heap w' = heap w /\
  terminal w' = terminal w /\
  FS.files (fs w') = FS.files (fs w) /\
  FS.dirs (fs w) ⊆ FS.dirs (fs w') /\
  (truthy pid = false -> w' = w).
Proof.
  rewrite Application_unfold.
  destruct (cwd_rejected w cwd); [by intros [= _ <-]|].
  destruct (is_dir w cwd); simpl; [|by intros [= _ <-]].
  unfold bind at 1.
  destruct ((if truthy pid then createProject V cwd pid else loadProject V cwd) w)
    as [[m|e'] w1] eqn:Hb.
  - unfold bind at 1. rewrite checkPaths_spec.
    destruct (missing w1 m).
    + intros [= _ <-].
      destruct (truthy pid) eqn:Hp.
      * apply createProject_mkdirs_only in Hb as [[[Hd _] [Hh Ht]] Hf]. done.
      * apply loadProject_eq in Hb as ->. done.
    + intros H. apply setupLogging_returns in H as [app H]. done.
  - intros [= _ <-].
    destruct (truthy pid) eqn:Hp.
    + apply createProject_mkdirs_only in Hb as [[[Hd _] [Hh Ht]] Hf]. done.
    + apply loadProject_eq in Hb as ->. done.
Qed.

(** X4.  In load mode the constructor creates no directory, whether it
    returns or throws, and leaves every object of the heap as it was. *)
Theorem load_creates_no_directory
    (cwd : string) (pid : value) (w w' : World) (r : outcome AppObject) :
  truthy pid = false ->
  Application V cwd pid w = (r, w') ->
  FS.dirs (fs w') = FS.dirs (fs w) /\
  (forall l, l ∈ dom (heap w) -> heap w' !! l = heap w !! l).
Proof.
  intros Hp. rewrite Application_unfold.
  destruct (cwd_rejected w cwd); [by intros [= _ <-]|].
  destruct (is_dir w cwd); simpl; [|by intros [= _ <-]].
  rewrite Hp. unfold bind at 1.
  destruct (loadProject V cwd w) as [[m|e'] w1] eqn:Hb;
    apply loadProject_eq in Hb as <-; [|by intros [= _ <-]].
  unfold bind at 1. rewrite checkPaths_spec.
  destruct (missing w m); [by intros [= _ <-]|].
  destruct (setupLogging_spec m w)
    as (app & w2 & t & -> & Hd & _ & _ & _ & _ & _ & _ & _ & _ & _ & _ & _ & Hkeep).
  by intros [= _ <-].
Qed.

End ConstructorEffects.

(** ** Creating a project under a free name *)

Module PathFacts2.
Import Path PathFacts.

Lemma split_app (a b : string) : split (a +:+ "/" +:+ b) = split a ++ split b.
Proof.
  induction a as [|c a IH]; [done|].
  rewrite append_cons. simpl. rewrite IH.
  destruct (is_slash c); [done|].
  pose proof (split_not_nil a). by destruct (split a).
Qed.

Lemma parts_child (a b : string) : parts (a +:+ "/" +:+ b) = parts a ++ parts b.
Proof. unfold parts. by rewrite split_app, List.filter_app. Qed.

Lemma split_no_slash (s : string) :
  no_slash (list_ascii_of_string s) = true -> split s = [s].
Proof.
  induction s as [|c s IH]; [done|]. simpl.
  intros [Hc Hs]%andb_true_iff. apply negb_true_iff in Hc. rewrite Hc.
  by rewrite IH.
Qed.

Lemma parts_segment (s : string) : segment s = true -> parts s = [s].
Proof.
  intros [Hne Hs]%andb_true_iff. unfold parts. rewrite split_no_slash by done.
  simpl. by rewrite Hne.
Qed.

End PathFacts2.

Module FSFacts2.
Import FS.

Lemma walk_app (f : t) (cs1 cs2 cur : list string) :
  walk f cur (cs1 ++ cs2) =
  match walk f cur cs1 with
  | Some p => walk f p cs2
  | None => None
  end.
Proof.
  revert cur. induction cs1 as [|c cs1 IH]; simpl; intros cur; [done|].
  by destruct (isdir f cur).
Qed.

Lemma enter_name (cur : list string) (n : string) :
  is_dot n = false -> enter cur n = n :: cur.
Proof.
  unfold is_dot, enter. intros [H1 H2]%orb_false_iff. by rewrite H1, H2.
Qed.

(** Where a name under a located directory leads. *)
Lemma locate_child (f : t) (cwd q : list string) (P n : string) :
  locate f cwd P = Some q -> isdir f q = true ->
  Path.segment n = true -> is_dot n = false ->
  locate f cwd (P +:+ "/" +:+ n) = Some (n :: q).
Proof.
  unfold locate. intros HP Hq Hn Hdot.
  destruct (Path.nonempty P) eqn:Hne; [|done].
  assert (Hne' : Path.nonempty (P +:+ "/" +:+ n) = true) by (by destruct P).
  rewrite Hne', PathFacts.isAbsolute_app by done.
  rewrite PathFacts2.parts_child, walk_app, HP, PathFacts2.parts_segment by done.
  simpl. by rewrite Hq, enter_name.
Qed.

Lemma wf_parent (f : t) (c : string) (p : list string) :
  fs_wf f = true -> node_at f (c :: p) <> None -> isdir f p = true.
Proof.
  unfold fs_wf. rewrite forallb_forall. intros Hwf Hn.
  apply (Hwf (c :: p)). apply in_or_app.
  unfold node_at in Hn. destruct (isdir f (c :: p)) eqn:Hd.
  - left. apply list_elem_of_In, elem_of_elements.
    unfold isdir in Hd. apply bool_decide_eq_true in Hd as [|]; done.
  - right. apply list_elem_of_In, elem_of_elements, elem_of_dom.
    destruct (files f !! (c :: p)) eqn:E; [by eexists | done].
Qed.

Lemma wf_absent_child (f : t) (c : string) (p : list string) :
  fs_wf f = true -> node_at f p = None -> node_at f (c :: p) = None.
Proof.
  intros Hwf Hp. destruct (node_at f (c :: p)) eqn:E; [|done].
  assert (Hd : isdir f p = true) by (apply (wf_parent f c); [done | congruence]).
  unfold node_at in Hp. by rewrite Hd in Hp.
Qed.

Lemma add_dir_dirs (f : t) (p : list string) : dirs f ⊆ dirs (add_dir f p).
Proof. apply union_subseteq_r. Qed.

Lemma add_dir_isdir (f : t) (p : list string) : isdir (add_dir f p) p = true.
Proof.
  unfold isdir. apply bool_decide_eq_true. right. simpl.
  apply elem_of_union_l, elem_of_singleton. done.
Qed.

Lemma add_dir_absent (f : t) (p x : list string) :
  x <> p -> node_at f x = None -> node_at (add_dir f p) x = None.
Proof.
  intros Hne. unfold node_at, isdir. simpl.
  destruct (bool_decide (x = [] ∨ x ∈ dirs f)) eqn:E; [done|].
  apply bool_decide_eq_false in E.
  rewrite bool_decide_eq_false_2; [done|].
  intros [?|[?%elem_of_singleton|?]%elem_of_union]; tauto.
Qed.

Lemma absent_not_dir (f : t) (p : list string) :
  node_at f p = None -> isdir f p = false.
Proof. unfold node_at. by destruct (isdir f p). Qed.

Lemma stat_absent (f : t) (cwd p : list string) (s : string) :
  locate f cwd s = Some p -> node_at f p = None -> stat f cwd s = None.
Proof. unfold stat. by intros -> ->. Qed.

Lemma stat_dir (f : t) (cwd p : list string) (s : string) :
  locate f cwd s = Some p -> isdir f p = true -> stat f cwd s = Some Dir.
Proof. unfold stat, node_at. by intros -> ->. Qed.

End FSFacts2.

Lemma cons_neq {A} (x : A) (l : list A) : x :: l <> l.
Proof.
  intros E. apply (f_equal (@length A)) in E. simpl in E. lia.
Qed.

(** [ShellJS.mkdir] of a free name under an existing directory creates
    it. *)
Lemma mkdir_child (w : World) (P n : string) (q : list string) :
  Path.isAbsolute P = true ->
  FS.locate (fs w) (proc_cwd w) P = Some q ->
  FS.isdir (fs w) q = true ->
  Path.segment n = true -> FS.is_dot n = false ->
  FS.node_at (fs w) (n :: q) = None ->
  ShellJS.mkdir (P +:+ "/" +:+ n) w = (Ok tt, with_fs w (add_dir (fs w) (n :: q))).
Proof.
  intros Ha HP Hq Hn Hdot Hfree.
  pose proof (FSFacts2.locate_child _ _ _ _ _ HP Hq Hn Hdot) as Hloc.
  unfold ShellJS.mkdir, FS.existsSync.
  rewrite (FSFacts2.stat_absent _ _ _ _ Hloc Hfree).
  rewrite bool_decide_eq_false_2 by (by intros [? ?]).
  rewrite PathFacts.dirname_child by done.
  rewrite (FSFacts2.stat_dir _ _ _ _ HP Hq).
  rewrite bool_decide_eq_true_2 by (by eexists). simpl.
  unfold FS.mkdirSync. rewrite Hloc, PathFacts2.parts_child.
  rewrite (PathFacts2.parts_segment n) by done.
  rewrite List.last_last, Hdot, Hfree. done.
Qed.

Lemma add_dir_grows (w : World) (p : list string) :
  grows w (with_fs w (add_dir (fs w) p)).
Proof. split; [apply FSFacts2.add_dir_dirs | done]. Qed.

Lemma is_dir_located (w : World) (s : string) (p : list string) :
  FS.locate (fs w) (proc_cwd w) s = Some p -> FS.isdir (fs w) p = true ->
  is_dir w s = true.
Proof. intros H1 H2. apply FSFacts.isDirectory_spec. by exists p. Qed.

Lemma locate_grows (w w' : World) (s : string) (p : list string) :
  grows w w' ->
  FS.locate (fs w) (proc_cwd w) s = Some p ->
  FS.locate (fs w') (proc_cwd w') s = Some p.
Proof.
  intros [Hd ->]. unfold FS.locate. destruct (Path.nonempty s); [|done].
  by apply FSFacts.walk_mono.
Qed.

Lemma mkdir_step (w : World) (root n : string) (r : list string) :
  Path.isAbsolute root = true ->
  FS.locate (fs w) (proc_cwd w) root = Some r ->
  FS.isdir (fs w) r = true ->
  Path.segment n = true -> FS.is_dot n = false ->
  FS.node_at (fs w) (n :: r) = None ->
  let w' := with_fs w (add_dir (fs w) (n :: r)) in
  ShellJS.mkdir (root +:+ "/" +:+ n) w = (Ok tt, w') /\
  grows w w' /\
  FS.locate (fs w') (proc_cwd w') root = Some r /\
  FS.isdir (fs w') r = true /\
  is_dir w' (root +:+ "/" +:+ n) = true /\
  (forall n', n' <> n -> FS.node_at (fs w) (n' :: r) = None ->
              FS.node_at (fs w') (n' :: r) = None).
Proof.
  intros Ha Hloc Hr Hn Hdot Hfree w'.
  pose proof (add_dir_grows w (n :: r)) as Hg. fold w' in Hg.
  pose proof (locate_grows _ _ _ _ Hg Hloc) as Hloc'.
  assert (Hr' : FS.isdir (fs w') r = true).
  { eapply FSFacts.isdir_mono; [apply Hg | done]. }
  repeat split; try done.
  - by apply mkdir_child.
  - apply Hg.
  - apply (is_dir_located w' _ (n :: r)).
    + by apply FSFacts2.locate_child.
    + apply FSFacts2.add_dir_isdir.
  - intros n' Hne Hfree'. apply FSFacts2.add_dir_absent; [congruence | done].
Qed.

Lemma absent_of_existsSync (f : FS.t) (cwd p : list string) (s : string) :
  FS.locate f cwd s = Some p -> Path.trailingSlash s = false ->
  FS.existsSync f cwd s = false -> FS.node_at f p = None.
Proof.
  unfold FS.existsSync, FS.stat. intros -> -> H.
  apply bool_decide_eq_false in H.
  destruct (FS.node_at f p) as [[|c]|]; [| |done]; exfalso; apply H; by eexists.
Qed.

Section Create.
Variable V : value -> outcome value.

(** X6.  Create mode returns: when [cwd] passes the two tests, the
    validator returns an id that is a directory name other than [.] and
    [..], nothing exists at the root path, and every file and directory of
    the filesystem lies in a directory, the constructor returns an instance
    laid out under [cwd], and the directories afterwards are those from
    before and the five new ones. *)
Theorem create_returns (cwd : string) (pid v : value) (w : World) :
  truthy pid = true ->
  cwd_rejected w cwd = false ->
  is_dir w cwd = true ->
  V pid = Ok v ->
  Path.segment (to_string v) = true ->
  FS.is_dot (to_string v) = false ->
  fs_wf (fs w) = true ->
  FS.existsSync (fs w) (proc_cwd w) (_rootPath (initMembers v cwd)) = false ->
  exists app w' q,
    Application V cwd pid w = (Ok app, w') /\
    members app = initMembers v cwd /\
    FS.locate (fs w) (proc_cwd w) cwd = Some q /\
    let r := to_string v :: q in
    FS.dirs (fs w') =
      {[ "prj" :: r ]} ∪ ({[ "pkg" :: r ]} ∪ ({[ "log" :: r ]}
        ∪ ({[ "app" :: r ]} ∪ ({[ r ]} ∪ FS.dirs (fs w))))).
Proof.
  intros Hp Hacc Hd Hv Hseg Hdot Hwf Hfree.
  pose proof (accepted_absolute w cwd Hacc) as Ha.
  apply FSFacts.isDirectory_spec in Hd as Hd'. destruct Hd' as (q & Hloc & Hq).
  set (id := to_string v) in *. set (m := initMembers v cwd) in *.
  set (r := id :: q).
  assert (Hroot : _rootPath m = cwd +:+ "/" +:+ id) by done.
  assert (Hrabs : Path.isAbsolute (_rootPath m) = true).
  { rewrite Hroot, PathFacts.isAbsolute_app; [done | by destruct cwd]. }
  assert (Hrloc : FS.locate (fs w) (proc_cwd w) (_rootPath m) = Some r).
  { rewrite Hroot. by apply FSFacts2.locate_child. }
  assert (Hrfree : FS.node_at (fs w) r = None).
  { eapply absent_of_existsSync; [exact Hrloc | | exact Hfree].
    rewrite Hroot. apply andb_true_iff in Hseg as Hs. destruct Hs as [Hne _].
    rewrite !PathFacts.trailingSlash_app; [by apply PathFacts.trailingSlash_segment|done|by destruct id]. }
  assert (Hkids : forall n, FS.node_at (fs w) (n :: r) = None).
  { intros n. by apply FSFacts2.wf_absent_child. }
  (* the root *)
  destruct (mkdir_step w cwd id q Ha Hloc Hq Hseg Hdot Hrfree)
    as (Hm1 & Hg1 & _ & _ & Hd1 & _).
  set (w1 := with_fs w (add_dir (fs w) r)) in *.
  assert (Hrloc1 : FS.locate (fs w1) (proc_cwd w1) (_rootPath m) = Some r)
    by (by apply (locate_grows w)).
  assert (Hr1 : FS.isdir (fs w1) r = true) by apply FSFacts2.add_dir_isdir.
  assert (Hkids1 : forall n, FS.node_at (fs w1) (n :: r) = None).
  { intros n. apply FSFacts2.add_dir_absent; [apply cons_neq | apply Hkids]. }
  (* the four children *)
  destruct (mkdir_step w1 (_rootPath m) "app" r Hrabs Hrloc1 Hr1 eq_refl eq_refl (Hkids1 _))
    as (Hm2 & Hg2 & Hrloc2 & Hr2 & Hd2 & Hkids2).
  set (w2 := with_fs w1 (add_dir (fs w1) ("app" :: r))) in *.
  destruct (mkdir_step w2 (_rootPath m) "log" r Hrabs Hrloc2 Hr2 eq_refl eq_refl
              (Hkids2 "log" ltac:(discriminate) (Hkids1 _)))
    as (Hm3 & Hg3 & Hrloc3 & Hr3 & Hd3 & Hkids3).
  set (w3 := with_fs w2 (add_dir (fs w2) ("log" :: r))) in *.
  destruct (mkdir_step w3 (_rootPath m) "pkg" r Hrabs Hrloc3 Hr3 eq_refl eq_refl
              (Hkids3 "pkg" ltac:(discriminate)
                 (Hkids2 "pkg" ltac:(discriminate) (Hkids1 _))))
    as (Hm4 & Hg4 & Hrloc4 & Hr4 & Hd4 & Hkids4).
  set (w4 := with_fs w3 (add_dir (fs w3) ("pkg" :: r))) in *.
  destruct (mkdir_step w4 (_rootPath m) "prj" r Hrabs Hrloc4 Hr4 eq_refl eq_refl
              (Hkids4 "prj" ltac:(discriminate)
                 (Hkids3 "prj" ltac:(discriminate)
                    (Hkids2 "prj" ltac:(discriminate) (Hkids1 _)))))
    as (Hm5 & Hg5 & _ & _ & Hd5 & _).
  set (w5 := with_fs w4 (add_dir (fs w4) ("prj" :: r))) in *.
  (* the branch *)
  assert (Hnot : is_dir w (_rootPath m) = false).
  { unfold is_dir, FS.isDirectory.
    by rewrite (FSFacts2.stat_absent _ _ _ _ Hrloc Hrfree). }
  assert (Hcreate : createProject V cwd pid w = (Ok m, w5)).
  { unfold createProject, validate, bind at 1. rewrite Hv.
    unfold bind at 1, ShellJS.test_d, gets. fold m. fold (is_dir w (_rootPath m)).
    rewrite Hnot. unfold bind at 1, throw_if, ret at 1.
    rewrite Hroot at 1. rewrite (bind_eq_ok _ _ _ _ _ Hm1).
    rewrite (bind_eq_ok _ _ _ _ _ Hm2), (bind_eq_ok _ _ _ _ _ Hm3).
    rewrite (bind_eq_ok _ _ _ _ _ Hm4), (bind_eq_ok _ _ _ _ _ Hm5). done. }
  (* the checks *)
  assert (Hall : Forall (fun p => is_dir w5 p = true) (layout m)).
  { repeat constructor.
    - apply (is_dir_grows w1); [|by rewrite Hroot].
      repeat (eapply grows_trans; [eassumption|]). apply grows_refl.
    - apply (is_dir_grows w2); [|done].
      repeat (eapply grows_trans; [eassumption|]). apply grows_refl.
    - apply (is_dir_grows w3); [|done].
      repeat (eapply grows_trans; [eassumption|]). apply grows_refl.
    - apply (is_dir_grows w4); [|done]. done.
    - done. }
  destruct (setupLogging_spec m w5) as (app & w' & t & Hs & Hdirs & _ & _ & Hmem & _).
  exists app, w', q. repeat split; try done.
  rewrite Application_unfold, Hacc, Hd, Hp. simpl.
  rewrite (bind_eq_ok _ _ _ _ _ Hcreate).
  assert (Hchk : checkPaths m w5 = (Ok tt, w5)).
  { rewrite checkPaths_spec. by apply missing_None in Hall as ->. }
  by rewrite (bind_eq_ok _ _ _ _ _ Hchk).
Qed.

End Create.

(** ** Assigning [platformLogfileOutput] *)

Lemma set_platformLogfileOutput_accepted (v : value) (st : State) :
  accepted_sink (heap (world st)) v = true ->
  set_platformLogfileOutput v st = (Ok tt, assigned v st).
Proof.
  unfold accepted_sink. intros H.
  destruct (instanceof_LogfileOutput (heap (world st)) v) eqn:E.
  - rewrite set_platformLogfileOutput_sink by done. unfold assigned.
    by destruct (instanceof_ref _ _ E) as (l & p & -> & _).
  - simpl in H. apply bool_decide_eq_true in H as ->.
    by rewrite set_platformLogfileOutput_null.
Qed.

Lemma set_platformLogfileOutput_refused (v : value) (st : State) :
  accepted_sink (heap (world st)) v = false ->
  snd (set_platformLogfileOutput v st) = st.
Proof.
  unfold accepted_sink. intros [H1 H2]%orb_false_iff.
  apply bool_decide_eq_false in H2. by rewrite set_platformLogfileOutput_other.
Qed.

Lemma repoint_kept (v : value) (h : gmap loc obj) (o l : loc) (p : string) :
  h !! l = Some (LogfileOutputObj p) ->
  alter (repoint v) o h !! l = Some (LogfileOutputObj p).
Proof.
  intros H. rewrite lookup_alter. case_decide as E; [rewrite E|]; by rewrite H.
Qed.

Lemma instanceof_repoint (v x : value) (h : gmap loc obj) (o : loc) :
  instanceof_LogfileOutput (alter (repoint v) o h) x = instanceof_LogfileOutput h x.
Proof.
  destruct x as [| | | |l]; try done. simpl. rewrite lookup_alter.
  case_decide as E; [rewrite E|]; [|done].
  by destruct (h !! l) as [[]|].
Qed.

Lemma accepted_assigned (v x : value) (st : State) :
  accepted_sink (heap (world (assigned v st))) x = accepted_sink (heap (world st)) x.
Proof. unfold accepted_sink, assigned. simpl. by rewrite instanceof_repoint. Qed.

Lemma assigned_assigned (v1 v2 : value) (st : State) :
  assigned v2 (assigned v1 st) = assigned v2 st.
Proof.
  unfold assigned. simpl. f_equal. unfold with_heap. simpl. f_equal.
  rewrite alter_alter_eq. apply alter_ext. intros o _. by destruct o.
Qed.

(** X8.  Of two assignments to [platformLogfileOutput] the second decides,
    when it is accepted: the state is the one the second alone would have
    left, whatever the first was given, and the getter returns the second
    value. *)
Theorem last_assignment_wins (v1 v2 : value) (st : State) :
  accepted_sink (heap (world st)) v2 = true ->
  snd (set_platformLogfileOutput v2 (snd (set_platformLogfileOutput v1 st)))
  = snd (set_platformLogfileOutput v2 st)
  /\ fst (get_platformLogfileOutput
            (snd (set_platformLogfileOutput v2 (snd (set_platformLogfileOutput v1 st)))))
     = Ok v2.
Proof.
  intros H2.
  destruct (accepted_sink (heap (world st)) v1) eqn:H1.
  - rewrite (set_platformLogfileOutput_accepted v1) by done. simpl.
    rewrite !set_platformLogfileOutput_accepted by (by rewrite ?accepted_assigned).
    simpl. by rewrite assigned_assigned.
  - rewrite (set_platformLogfileOutput_refused v1) by done.
    by rewrite set_platformLogfileOutput_accepted.
Qed.

Lemma perform_frame (c : call) (st : State) :
  let st' := snd (perform c st) in
  this st' = this st \/
  (exists v, this st' = mkApp (members (this st)) (_logfileOutput (this st)) v
                              (_output (this st))).
Proof.
  destruct c as [v|v|v|p]; simpl; try (by left).
  - destruct (accepted_sink (heap (world st)) v) eqn:E.
    + rewrite set_platformLogfileOutput_accepted by done. right. by exists v.
    + rewrite set_platformLogfileOutput_refused by done. by left.
Qed.

Lemma perform_world (c : call) (st : State) :
  let st' := snd (perform c st) in
  terminal (world st') = terminal (world st) /\
  proc_cwd (world st') = proc_cwd (world st) /\
  FS.dirs (fs (world st')) = FS.dirs (fs (world st)).
Proof.
  destruct c as [v|v|v|p]; simpl; try done.
  - destruct (accepted_sink (heap (world st)) v) eqn:E.
    + by rewrite set_platformLogfileOutput_accepted.
    + by rewrite set_platformLogfileOutput_refused.
  - unfold bind, lift, new_LogfileOutput, bind, modify, alloc, ret. simpl.
    by rewrite FSFacts.truncate_dirs.
Qed.

Lemma run_this (cs : list call) (st : State) :
  members (this (run cs st)) = members (this st) /\
  _logfileOutput (this (run cs st)) = _logfileOutput (this st) /\
  _output (this (run cs st)) = _output (this st).
Proof.
  revert st. induction cs as [|c cs IH]; intros st; [done|].
  simpl. destruct (IH (snd (perform c st))) as (-> & -> & ->).
  destruct (perform_frame c st) as [E|[v E]]; simpl in E; by rewrite E.
Qed.

Lemma run_world (cs : list call) (st : State) :
  terminal (world (run cs st)) = terminal (world st) /\
  proc_cwd (world (run cs st)) = proc_cwd (world st) /\
  FS.dirs (fs (world (run cs st))) = FS.dirs (fs (world st)).
Proof.
  revert st. induction cs as [|c cs IH]; intros st; [done|].
  simpl. destruct (IH (snd (perform c st))) as (-> & -> & ->).
  apply perform_world.
Qed.

(** X10.  Over any sequence of property assignments the getters
    [packageId], [rootPath], [appPath], [logPath], [pkgPath], [prjPath] and
    [output] return what they returned at first; the common sink, the
    terminal instance and the directories stay as they are. *)
Theorem lifetime_readonly (cs : list call) (st : State) :
  let st' := run cs st in
  (fst (get_packageId st') = fst (get_packageId st) /\
   fst (get_rootPath st') = fst (get_rootPath st) /\
   fst (get_appPath st') = fst (get_appPath st) /\
   fst (get_logPath st') = fst (get_logPath st) /\
   fst (get_pkgPath st') = fst (get_pkgPath st) /\
   fst (get_prjPath st') = fst (get_prjPath st) /\
   fst (get_output st') = fst (get_output st))
  /\ _logfileOutput (this st') = _logfileOutput (this st)
  /\ terminal (world st') = terminal (world st)
  /\ FS.dirs (fs (world st')) = FS.dirs (fs (world st)).
Proof.
  intros st'. subst st'.
  destruct (run_this cs st) as (H1 & H2 & H3).
  destruct (run_world cs st) as (H4 & _ & H5).
  unfold get_packageId, get_rootPath, get_appPath, get_logPath, get_pkgPath,
    get_prjPath, get_output, gets. simpl.
  by rewrite H1, H2, H3, H4, H5.
Qed.

Lemma perform_keeps (c : call) (st : State) (l : loc) (o : obj) :
  heap (world st) !! l = Some o -> l <> _output (this st) ->
  heap (world (snd (perform c st))) !! l = Some o /\
  _output (this (snd (perform c st))) = _output (this st).
Proof.
  intros Hl Hne. destruct c as [v|v|v|p]; simpl; try done.
  - destruct (accepted_sink (heap (world st)) v) eqn:E.
    + rewrite set_platformLogfileOutput_accepted by done. simpl.
      by rewrite lookup_alter_ne.
    + by rewrite set_platformLogfileOutput_refused.
  - unfold bind, lift, new_LogfileOutput, bind, modify, alloc, ret. simpl.
    split; [|done]. rewrite lookup_insert_ne; [done|].
    intros E. pose proof (is_fresh (dom (heap (world st)))) as Hf.
    apply Hf, elem_of_dom. rewrite E. by eexists.
Qed.

Lemma run_keeps (cs : list call) (st : State) (l : loc) (o : obj) :
  heap (world st) !! l = Some o -> l <> _output (this st) ->
  heap (world (run cs st)) !! l = Some o.
Proof.
  revert st. induction cs as [|c cs IH]; intros st Hl Hne; [done|].
  simpl. destruct (perform_keeps c st l o Hl Hne) as [H1 H2].
  apply IH; [done | by rewrite H2].
Qed.

(** ** Instances side by side *)

Lemma dirname_absolute (p : string) :
  Path.isAbsolute p = true -> Path.isAbsolute (Path.dirname p) = true.
Proof.
  intros Ha. destruct p as [|c p]; [done|]. simpl in Ha.
  unfold Path.dirname, Path.splitPath. rewrite Ha. done.
Qed.

Lemma layout_absolute (v : value) (base : string) :
  Path.isAbsolute base = true ->
  Forall (fun p => Path.isAbsolute p = true) (layout (initMembers v base)).
Proof.
  intros Ha. destruct base as [|c base]; [done|]. simpl in Ha.
  unfold layout.
  repeat first [ by apply Forall_nil | apply Forall_cons; split ]; simpl;
    by rewrite ?PathFacts.append_cons.
Qed.

Section Instances.
Variable V : value -> outcome value.

(** X9.  Assigning [null] to an instance whose [platformLogfileOutput] is
    [null], at construction or later, returns and changes nothing. *)
Theorem reset_when_unset
    (cwd : string) (pid : value) (w w' : World) (app : AppObject) (cs : list call) :
  Application V cwd pid w = (Ok app, w') ->
  let st := run cs (mkState app w') in
  _platformLogfileOutput (this st) = VNull ->
  set_platformLogfileOutput VNull st = (Ok tt, st).
Proof.
  intros Hok st Hnull.
  destruct (Application_wired V _ _ _ _ _ Hok) as (t & Hw & _ & _).
  pose proof (wired_run _ _ _ _ cs _ Hw) as Hst. fold st in Hst.
  destruct Hst as (Hlf & Ho & _ & sec & Htee & Hsec).
  assert (sec = VRef (_logfileOutput app)) as ->.
  { destruct Hsec as [[_ ?]|(H1 & H2 & _)]; [done | congruence]. }
  rewrite set_platformLogfileOutput_null. f_equal.
  destruct st as [[m lf p o] [f c h tm]]. simpl in *. subst.
  f_equal. unfold with_heap. simpl. f_equal.
  apply alter_id. intros x Hx. rewrite Htee in Hx. by injection Hx as <-.
Qed.

(** X7.  The router and the common sink of a new instance are new
    objects: an object that was on the heap before the constructor ran is
    neither, and it is left as it was by the constructor and by every
    property assignment made on the new instance. *)
Theorem instances_isolated
    (cwd : string) (pid : value) (w w' : World) (app : AppObject)
    (cs : list call) (l : loc) (o : obj) :
  Application V cwd pid w = (Ok app, w') ->
  heap w !! l = Some o ->
  l <> _output app /\ l <> _logfileOutput app /\
  heap w' !! l = Some o /\
  heap (world (run cs (mkState app w'))) !! l = Some o.
Proof.
  intros Hok Hl.
  apply Application_ok in Hok as (_ & _ & m & w1 & Hb & _ & Hs & _).
  assert (Hsame : same_heap w w1).
  { destruct (truthy pid).
    - by apply createProject_scaffolds in Hb as [_ H].
    - by apply loadProject_eq in Hb as ->. }
  destruct Hsame as [Hh _].
  destruct (setupLogging_spec m w1)
    as (app' & w'' & t & Hs' & _ & _ & _ & _ & _ & Hlf & Ho & _ & _ & _ & _ & _ & Hkeep).
  rewrite Hs' in Hs. injection Hs as <- <-. rewrite Hh in *.
  assert (Hin : l ∈ dom (heap w)) by (apply elem_of_dom; by eexists).
  assert (Hne : l <> _output app') by (by intros ->).
  assert (Hl' : heap w'' !! l = Some o) by (by rewrite Hkeep).
  repeat split; try done.
  - by intros ->.
  - by apply run_keeps.
Qed.

(** X11.  The five paths of an instance that was returned are absolute,
    in create mode and in load mode. *)
Theorem paths_absolute
    (cwd : string) (pid : value) (w w' : World) (app : AppObject) :
  Application V cwd pid w = (Ok app, w') ->
  Forall (fun p => Path.isAbsolute p = true) (layout (members app)).
Proof.
  intros (Hacc & _ & m & w1 & Hb & _ & _ & ->)%Application_ok.
  apply accepted_absolute in Hacc.
  destruct (truthy pid).
  - apply createProject_ok in Hb as (v & _ & -> & _). by apply layout_absolute.
  - rewrite loadProject_spec in Hb. destruct (V _) as [v|]; [|done].
    destruct (truthy v); [|done]. injection Hb as <- _.
    by apply layout_absolute, dirname_absolute.
Qed.

(** X12.  Whether a project is created or loaded depends on the
    truthiness of [packageId] alone: the empty string, [null] and
    [undefined] give the same call, the load of [cwd]. *)
Theorem falsy_packageId_loads (cwd : string) (pid pid' : value) (w : World) :
  truthy pid = false -> truthy pid' = false ->
  Application V cwd pid w = Application V cwd pid' w.
Proof. intros H1 H2. by rewrite !Application_unfold, H1, H2. Qed.

(** X13.  Two instances built one after the other, with any property
    assignments on the first in between, have different routers and
    different common sinks and the same terminal sink; building the second
    leaves the logfile sink of the first router where it was. *)
Theorem instances_share_terminal
    (cwd1 cwd2 : string) (pid1 pid2 : value) (w w1 w2 : World)
    (app1 app2 : AppObject) (cs : list call) :
  Application V cwd1 pid1 w = (Ok app1, w1) ->
  let st1 := run cs (mkState app1 w1) in
  Application V cwd2 pid2 (world st1) = (Ok app2, w2) ->
  _output app2 <> _output app1 /\
  _logfileOutput app2 <> _logfileOutput app1 /\
  (exists t,
     primary_sink (mkState app2 w2) = Some (VRef t) /\
     primary_sink (mkState (this st1) w2) = Some (VRef t)) /\
  secondary_sink (mkState (this st1) w2) = secondary_sink st1.
Proof.
  intros Hok1 st1 Hok2.
  destruct (Application_wired V _ _ _ _ _ Hok1) as (t1 & Hw & _ & Ht1).
  pose proof (wired_run _ _ _ _ cs _ Hw) as Hst. fold st1 in Hst.
  destruct Hst as (Hlf & Ho & Hcommon & sec & Htee & _).
  assert (Hterm : terminal (world st1) = Some t1).
  { destruct (run_world cs (mkState app1 w1)) as (H & _). fold st1 in H.
    by rewrite H. }
  apply Application_ok in Hok2 as (_ & _ & m & w' & Hb & _ & Hs & _).
  assert (Hsame : same_heap (world st1) w').
  { destruct (truthy pid2).
    - by apply createProject_scaffolds in Hb as [_ H].
    - by apply loadProject_eq in Hb as ->. }
  destruct Hsame as [Hh Ht].
  destruct (setupLogging_spec m w')
    as (app' & w'' & t & Hs' & _ & _ & _ & _ & _ & Hlf2 & Ho2 & _ & _ & Htee2 & _ & Hsing & Hkeep).
  rewrite Hs' in Hs. injection Hs as <- <-. rewrite Hh in *. rewrite Ht in *.
  assert (t = t1) as -> by (by apply Hsing).
  assert (Hin : forall l x, heap (world st1) !! l = Some x -> l ∈ dom (heap (world st1))).
  { intros l x Hl. apply elem_of_dom. by eexists. }
  assert (Ho1 : heap w'' !! _output app1 = Some (OutputTeeObj sec (VRef t1))).
  { rewrite Hkeep; [done|]. by eapply Hin. }
  repeat split.
  - intros E. rewrite E in Ho2. apply Ho2. by eapply Hin.
  - intros E. rewrite E in Hlf2. apply Hlf2. by eapply Hin.
  - exists t1. unfold primary_sink. simpl. by rewrite Htee2, Ho, Ho1.
  - unfold secondary_sink. simpl. by rewrite Ho, Ho1, Htee.
Qed.

End Instances.

(** ** The further properties at concrete inputs *)

Lemma second_example : Application validator "/work" bar w1 = (Ok app2, w2).
Proof. vm_compute. reflexivity. Qed.

Lemma validator_exception_propagates_witness :
  Application raising "/work" foo w0
  = (Throw (ForeignException "InvalidPackageId"), w0).
Proof.
  refine (validator_exception_propagates raising "/work" foo w0 _ _ _ _).
  all: vm_compute; reflexivity.
Defined.


Lemma load_creates_no_directory_witness :
  FS.dirs (fs (snd (Application validator "/work/com.example.foo" VUndefined w1)))
  = FS.dirs (fs w1).
Proof.
  refine (proj1 (load_creates_no_directory validator "/work/com.example.foo" VUndefined
                   w1 _ _ _ _)).
  - reflexivity.
  - apply surjective_pairing.
Defined.

Lemma failed_construction_witness :
  heap w_bare = heap w_bare /\ terminal w_bare = terminal w_bare
  /\ FS.files (fs w_bare) = FS.files (fs w_bare)
  /\ FS.dirs (fs w_bare) ⊆ FS.dirs (fs w_bare)
  /\ (truthy VUndefined = false -> w_bare = w_bare).
Proof.
  refine (failed_construction validator "/work/com.example.foo" VUndefined w_bare w_bare
            (InvalidPathException "Failed to load, invalid path: /work/com.example.foo/app")
            _).
  vm_compute. reflexivity.
Defined.

Lemma create_returns_witness :
  exists app w' q,
    Application validator "/work" foo w0 = (Ok app, w')
    /\ members app = initMembers foo "/work"
    /\ FS.locate (fs w0) (proc_cwd w0) "/work" = Some q
    /\ let r := to_string foo :: q in
       FS.dirs (fs w') =
         {[ "prj" :: r ]} ∪ ({[ "pkg" :: r ]} ∪ ({[ "log" :: r ]}
           ∪ ({[ "app" :: r ]} ∪ ({[ r ]} ∪ FS.dirs (fs w0))))).
Proof.
  refine (create_returns validator "/work" foo foo w0 _ _ _ _ _ _ _ _).
  all: vm_compute; reflexivity.
Defined.

Lemma last_assignment_wins_witness :
  snd (set_platformLogfileOutput VNull
         (snd (set_platformLogfileOutput (VRef 1%positive) st1)))
  = snd (set_platformLogfileOutput VNull st1)
  /\ fst (get_platformLogfileOutput
            (snd (set_platformLogfileOutput VNull
                    (snd (set_platformLogfileOutput (VRef 1%positive) st1)))))
     = Ok VNull.
Proof.
  refine (last_assignment_wins (VRef 1%positive) VNull st1 _).
  vm_compute. reflexivity.
Defined.

Lemma reset_when_unset_witness :
  set_platformLogfileOutput VNull st1 = (Ok tt, st1).
Proof.
  refine (reset_when_unset validator "/work" foo w0 w1 app1 [] created_example _).
  reflexivity.
Defined.

Lemma instances_isolated_witness :
  heap (world (run calls (mkState app2 w2))) !! 3%positive
  = Some (OutputTeeObj (VRef 1%positive) (VRef 2%positive)).
Proof.
  refine (proj2 (proj2 (proj2
    (instances_isolated validator "/work" bar w1 w2 app2 calls 3%positive
       (OutputTeeObj (VRef 1%positive) (VRef 2%positive)) second_example _)))).
  vm_compute. reflexivity.
Defined.

Lemma paths_absolute_witness :
  Forall (fun p => Path.isAbsolute p = true) (layout (members app1)).
Proof. exact (paths_absolute validator "/work" foo w0 w1 app1 created_example). Defined.

Lemma falsy_packageId_loads_witness :
  Application validator "/work/com.example.foo" (VStr "") w1
  = Application validator "/work/com.example.foo" VUndefined w1.
Proof.
  refine (falsy_packageId_loads validator "/work/com.example.foo" (VStr "") VUndefined w1 _ _).
  all: reflexivity.
Defined.

Lemma instances_share_terminal_witness :
  _output app2 <> _output app1 /\
  _logfileOutput app2 <> _logfileOutput app1 /\
  (exists t,
     primary_sink (mkState app2 w2) = Some (VRef t) /\
     primary_sink (mkState (this (run [] (mkState app1 w1))) w2) = Some (VRef t)) /\
  secondary_sink (mkState (this (run [] (mkState app1 w1))) w2)
  = secondary_sink (run [] (mkState app1 w1)).
Proof.
  exact (instances_share_terminal validator "/work" "/work" foo bar w0 w1 w2 app1 app2 []
           created_example second_example).
Defined.
